(** * gotty: session protocol and connection lifecycle

    A shallow embedding of the browser client ([js/src/webtty.ts],
    [js/src/xterm.ts], [js/src/main.ts]) and of the server's lifecycle code
    ([server/run_option.go]: [New], [Run], [setupHandlers], [URL]), with the
    properties of the session protocol stated over it. *)

From Stdlib Require Import String Ascii.
From Stdlib Require Import ZArith List Bool Lia.
Import ListNotations.
Local Open Scope Z_scope.

(** ** JavaScript strings

    A JavaScript string is a sequence of UTF-16 code units.  A "binary
    string" (what [atob] returns) is one whose code units are all below 256. *)

Definition jsstring := list Z.

Definition lit (s : string) : jsstring :=
  map (fun a => Z.of_N (N_of_ascii a)) (list_ascii_of_string s).

Definition byte (b : Z) : Prop := 0 <= b < 256.

Fixpoint jseqb (a b : jsstring) : bool :=
  match a, b with
  | [], [] => true
  | x :: a', y :: b' => (x =? y) && jseqb a' b'
  | _, _ => false
  end.

Fixpoint starts_with (p s : jsstring) : bool :=
  match p, s with
  | [], _ => true
  | x :: p', y :: s' => (x =? y) && starts_with p' s'
  | _ :: _, [] => false
  end.

(** Exceptions a builtin can throw into the controller. *)
Inductive Exn := URIError | InvalidCharacterError | SyntaxError.

(** Outcome of an expression that may throw. *)
Inductive Completion (A : Type) :=
| Normal (v : A)
| Throw (e : Exn).
Arguments Normal {A} v.
Arguments Throw {A} e.

Definition bindC {A B} (c : Completion A) (k : A -> Completion B) : Completion B :=
  match c with
  | Normal v => k v
  | Throw e => Throw e
  end.

Definition mapC {A B} (f : A -> B) (c : Completion A) : Completion B :=
  bindC c (fun v => Normal (f v)).

Notation "x <- c ;; k" := (bindC c (fun x => k))
  (at level 61, c at next level, right associativity).

(** ** Base64 *)

Module Base64.

(** The 64-character alphabet [A-Za-z0-9+/], as a map from a sextet to the
    code of its character. *)
Definition enc_char (s : Z) : Z :=
  if s <? 26 then 65 + s
  else if s <? 52 then 97 + (s - 26)
  else if s <? 62 then 48 + (s - 52)
  else if s =? 62 then 43
  else 47.

Definition dec_char (c : Z) : option Z :=
  if (65 <=? c) && (c <=? 90) then Some (c - 65)
  else if (97 <=? c) && (c <=? 122) then Some (c - 97 + 26)
  else if (48 <=? c) && (c <=? 57) then Some (c - 48 + 52)
  else if c =? 43 then Some 62
  else if c =? 47 then Some 63
  else None.

Definition pad : Z := 61.

(** Modelled from the spec: the server's payload encoding of an [Output]
    frame is "a byte-safe text encoding (binary-safe through a reversible
    text transform)"; the encoder itself (webtty package of the server) is
    not part of the sources.  It is taken to be standard base64 with
    padding, the transform the client's [atob] call undoes: three bytes
    make four characters, a tail of one or two bytes is padded with [=]. *)
Fixpoint EncodeToString (src : list Z) : jsstring :=
  match src with
  | [] => []
  | [a] =>
      [enc_char (a / 4); enc_char ((a mod 4) * 16); pad; pad]
  | [a; b] =>
      [enc_char (a / 4); enc_char ((a mod 4) * 16 + b / 16);
       enc_char ((b mod 16) * 4); pad]
  | a :: b :: c :: rest =>
      enc_char (a / 4) :: enc_char ((a mod 4) * 16 + b / 16)
      :: enc_char ((b mod 16) * 4 + c / 64) :: enc_char (c mod 64)
      :: EncodeToString rest
  end.

(** [atob] is the browser's forgiving-base64 decode. *)

Definition is_ascii_whitespace (c : Z) : bool :=
  (c =? 9) || (c =? 10) || (c =? 12) || (c =? 13) || (c =? 32).

Definition strip_whitespace (s : jsstring) : jsstring :=
  filter (fun c => negb (is_ascii_whitespace c)) s.

(** Drop one or two trailing [=] when the length is a multiple of four. *)
Definition strip_padding (s : jsstring) : jsstring :=
  if (Z.of_nat (length s) mod 4 =? 0)
  then match rev s with
       | 61 :: 61 :: r => rev r
       | 61 :: r => rev r
       | _ => s
       end
  else s.

Fixpoint sextets_of (s : jsstring) : option (list Z) :=
  match s with
  | [] => Some []
  | c :: s' =>
      match dec_char c, sextets_of s' with
      | Some x, Some xs => Some (x :: xs)
      | _, _ => None
      end
  end.

(** Four sextets fill the 24-bit buffer and give three bytes; a tail of two
    sextets gives one byte (four bits discarded), a tail of three gives two
    bytes (two bits discarded). *)
Fixpoint bytes_of_sextets (l : list Z) : list Z :=
  match l with
  | s0 :: s1 :: s2 :: s3 :: rest =>
      (s0 * 4 + s1 / 16) :: ((s1 mod 16) * 16 + s2 / 4)
      :: ((s2 mod 4) * 64 + s3) :: bytes_of_sextets rest
  | [s0; s1; s2] => [s0 * 4 + s1 / 16; (s1 mod 16) * 16 + s2 / 4]
  | [s0; s1] => [s0 * 4 + s1 / 16]
  | _ => []
  end.

Definition atob (data : jsstring) : Completion jsstring :=
  let s := strip_padding (strip_whitespace data) in
  if Z.of_nat (length s) mod 4 =? 1 then Throw InvalidCharacterError
  else match sextets_of s with
       | None => Throw InvalidCharacterError
       | Some l => Normal (bytes_of_sextets l)
       end.

End Base64.

(** ** Percent escapes and [decodeURIComponent] *)

Module URI.

Definition hex_digit (d : Z) : Z :=
  if d <? 10 then 48 + d else 97 + (d - 10).

(** [Number.prototype.toString(16)] on a code unit: most significant digit
    first, no leading zero. *)
Fixpoint hex_digits (fuel : nat) (n : Z) : jsstring :=
  match fuel with
  | O => []
  | S f =>
      if n <? 16 then [hex_digit n]
      else hex_digits f (n / 16) ++ [hex_digit (n mod 16)]
  end.

Definition toString16 (n : Z) : jsstring := hex_digits 4 n.

(** [s.slice(-2)]: the last two code units of [s] (all of it when shorter). *)
Definition slice_last2 (s : jsstring) : jsstring :=
  skipn (length s - 2) s.

(** The callback mapped over the result of [atob]:
    ['%' + ('00' + c.charCodeAt(0).toString(16)).slice(-2)]. *)
Definition percent_escape (c : Z) : jsstring :=
  37 :: slice_last2 (lit "00" ++ toString16 c).

(** [Array.prototype.map.call(s, f).join('')]. *)
Definition map_join (f : Z -> jsstring) (s : jsstring) : jsstring :=
  concat (map f s).

Definition hex_value (c : Z) : option Z :=
  if (48 <=? c) && (c <=? 57) then Some (c - 48)
  else if (97 <=? c) && (c <=? 102) then Some (c - 87)
  else if (65 <=? c) && (c <=? 70) then Some (c - 55)
  else None.

(** One escape [%XX] at the head of [s]: its octet and what follows. *)
Definition take_escape (s : jsstring) : option (Z * jsstring) :=
  match s with
  | 37 :: h1 :: h2 :: rest =>
      match hex_value h1, hex_value h2 with
      | Some a, Some b => Some (16 * a + b, rest)
      | _, _ => None
      end
  | _ => None
  end.

(** [n] further escapes, each an octet of the form [10xxxxxx]. *)
Fixpoint take_continuation (n : nat) (s : jsstring) : option (list Z) :=
  match n with
  | O => Some []
  | S n' =>
      match take_escape s with
      | Some (B, rest) =>
          if (128 <=? B) && (B <? 192)
          then option_map (cons B) (take_continuation n' rest)
          else None
      | None => None
      end
  end.

(** Number of octets announced by a leading octet with its top bit set: the
    number of leading one bits, which must be 2, 3 or 4. *)
Definition sequence_length (B : Z) : option nat :=
  if B <? 192 then None
  else if B <? 224 then Some 2%nat
  else if B <? 240 then Some 3%nat
  else if B <? 248 then Some 4%nat
  else None.

(** The code point carried by a leading octet and its continuation octets,
    when they are a well-formed UTF-8 sequence: shortest form, no surrogate,
    at most U+10FFFF. *)
Definition code_point_of (B : Z) (cont : list Z) : option Z :=
  match cont with
  | [c1] =>
      let V := (B - 192) * 64 + (c1 - 128) in
      if 128 <=? V then Some V else None
  | [c1; c2] =>
      let V := (B - 224) * 4096 + (c1 - 128) * 64 + (c2 - 128) in
      if (2048 <=? V) && negb ((55296 <=? V) && (V <=? 57343))
      then Some V else None
  | [c1; c2; c3] =>
      let V := (B - 240) * 262144 + (c1 - 128) * 4096
               + (c2 - 128) * 64 + (c3 - 128) in
      if (65536 <=? V) && (V <=? 1114111) then Some V else None
  | _ => None
  end.

(** A code point as UTF-16 code units. *)
Definition utf16_units (V : Z) : jsstring :=
  if V <? 65536 then [V]
  else [55296 + (V - 65536) / 1024; 56320 + (V - 65536) mod 1024].

(** One iteration of the Decode loop of ECMAScript with an empty reserved
    set, at the head of [s] (which is not empty): the code units produced
    and how many code units after the first the iteration consumed. *)
Definition decode_at (s : jsstring) : Completion (jsstring * nat) :=
  match s with
  | [] => Normal ([], O)
  | c :: tl =>
      if c =? 37 then
        match take_escape s with
        | None => Throw URIError
        | Some (B, rest) =>
            if B <? 128 then Normal ([B], 2%nat)
            else
              match sequence_length B with
              | None => Throw URIError
              | Some n =>
                  match take_continuation (n - 1) rest with
                  | None => Throw URIError
                  | Some cont =>
                      match code_point_of B cont with
                      | None => Throw URIError
                      | Some V => Normal (utf16_units V, (3 * n - 1)%nat)
                      end
                  end
              end
        end
      else Normal ([c], O)
  end.

(** The loop itself.  [skip] counts the code units the previous iteration
    has already consumed. *)
Fixpoint Decode (skip : nat) (s : jsstring) : Completion jsstring :=
  match s with
  | [] => Normal []
  | _ :: tl =>
      match skip with
      | S k => Decode k tl
      | O =>
          match decode_at s with
          | Throw e => Throw e
          | Normal (R, n) => mapC (app R) (Decode n tl)
          end
      end
  end.

Definition decodeURIComponent (s : jsstring) : Completion jsstring :=
  Decode O s.

End URI.

(** ** UTF-8, for reference

    The encoding of a Unicode scalar value as octets (RFC 3629); it is what
    a byte stream must consist of to be text. *)

Module UTF8.

Definition scalar_value (c : Z) : Prop :=
  0 <= c <= 1114111 /\ ~ (55296 <= c <= 57343).

Definition encode_scalar (c : Z) : list Z :=
  if c <? 128 then [c]
  else if c <? 2048 then [192 + c / 64; 128 + c mod 64]
  else if c <? 65536 then
    [224 + c / 4096; 128 + (c / 64) mod 64; 128 + c mod 64]
  else
    [240 + c / 262144; 128 + (c / 4096) mod 64;
     128 + (c / 64) mod 64; 128 + c mod 64].

Definition encode (text : list Z) : list Z := concat (map encode_scalar text).

(** The same text as a JavaScript string. *)
Definition to_jsstring (text : list Z) : jsstring :=
  concat (map URI.utf16_units text).

End UTF8.

(** ** JSON builtins *)

Module JSON.

(** Values produced by [JSON.parse].  Integers are kept concrete (the
    reconnect delay is one); every other value is left to the instance. *)
Inductive Value (O : Type) :=
| Num (n : Z)
| Other (o : O).
Arguments Num {O} n.
Arguments Other {O} o.

(** The builtins of the JavaScript engine the controller relies on and that
    are not modelled here: the parser, and the coercions [v > 0] and
    [v * 1000] on values that are not integers. *)
Class Builtin := {
  Opaque : Type;
  parse : jsstring -> Completion (Value Opaque);
  other_gt_zero : Opaque -> bool;
  other_times_1000 : Opaque -> Z
}.

(** [Number.prototype.toString] on an integer (below the size where the
    exponent notation starts). *)
Fixpoint dec_digits (fuel : nat) (n : Z) : jsstring :=
  match fuel with
  | O => []
  | S f =>
      if n <? 10 then [48 + n]
      else dec_digits f (n / 10) ++ [48 + n mod 10]
  end.

Definition number_to_string (n : Z) : jsstring :=
  if n <? 0 then 45 :: dec_digits (S (Z.to_nat (Z.log2 (- n)))) (- n)
  else dec_digits (S (Z.to_nat (Z.log2 n))) n.

Definition hex4 (c : Z) : jsstring :=
  [URI.hex_digit (c / 4096); URI.hex_digit ((c / 256) mod 16);
   URI.hex_digit ((c / 16) mod 16); URI.hex_digit (c mod 16)].

(** QuoteJSONString, one code unit at a time. *)
Definition quote_unit (c : Z) : jsstring :=
  if c =? 8 then lit "\b"
  else if c =? 9 then lit "\t"
  else if c =? 10 then lit "\n"
  else if c =? 12 then lit "\f"
  else if c =? 13 then lit "\r"
  else if c =? 34 then [92; 34]
  else if c =? 92 then [92; 92]
  else if c <? 32 then lit "\u" ++ hex4 c
  else [c].

Definition leading_surrogate (c : Z) : bool := (55296 <=? c) && (c <=? 56319).
Definition trailing_surrogate (c : Z) : bool := (56320 <=? c) && (c <=? 57343).

(** The string is read by code points: a surrogate pair is copied, a
    surrogate that stands alone is written as a [\u] escape. *)
Fixpoint quote_body (s : jsstring) : jsstring :=
  match s with
  | [] => []
  | c :: rest =>
      if leading_surrogate c then
        match rest with
        | d :: rest' =>
            if trailing_surrogate d then c :: d :: quote_body rest'
            else lit "\u" ++ hex4 c ++ quote_body rest
        | [] => lit "\u" ++ hex4 c
        end
      else if trailing_surrogate c then lit "\u" ++ hex4 c ++ quote_body rest
      else quote_unit c ++ quote_body rest
  end.

Definition quote (s : jsstring) : jsstring :=
  34 :: quote_body s ++ [34].

(** [JSON.stringify({Arguments: args, AuthToken: token})]. *)
Definition stringify_handshake (args token : jsstring) : jsstring :=
  lit "{" ++ quote (lit "Arguments") ++ lit ":" ++ quote args
  ++ lit "," ++ quote (lit "AuthToken") ++ lit ":" ++ quote token ++ lit "}".

(** [JSON.stringify({columns: columns, rows: rows})]. *)
Definition stringify_size (columns rows : Z) : jsstring :=
  lit "{" ++ quote (lit "columns") ++ lit ":" ++ number_to_string columns
  ++ lit "," ++ quote (lit "rows") ++ lit ":" ++ number_to_string rows
  ++ lit "}".

(** A small engine, to run the controller on concrete frames: its parser
    accepts the decimal integer literals of JSON and nothing else. *)
Fixpoint parse_digits (acc : Z) (s : jsstring) : option Z :=
  match s with
  | [] => Some acc
  | c :: s' =>
      if (48 <=? c) && (c <=? 57) then parse_digits (10 * acc + (c - 48)) s'
      else None
  end.

Definition parse_natural (s : jsstring) : option Z :=
  match s with
  | [] => None
  | [48] => Some 0
  | 48 :: _ => None
  | _ => parse_digits 0 s
  end.

Definition parse_integer (s : jsstring) : Completion (Value Empty_set) :=
  match s with
  | 45 :: s' =>
      match parse_natural s' with
      | Some n => Normal (Num (- n))
      | None => Throw SyntaxError
      end
  | _ =>
      match parse_natural s with
      | Some n => Normal (Num n)
      | None => Throw SyntaxError
      end
  end.

Definition integers_only : Builtin :=
  {| Opaque := Empty_set;
     parse := parse_integer;
     other_gt_zero := fun o => match o with end;
     other_times_1000 := fun o => match o with end |}.

End JSON.

(** ** The client controller ([webtty.ts]) and the terminal ([xterm.ts]) *)

Module WebTTY.

Definition protocols : list jsstring := [lit "webtty"].

Definition InputUnknown : jsstring := lit "0".
Definition Input : jsstring := lit "1".
Definition Ping : jsstring := lit "2".
Definition ResizeTerminal : jsstring := lit "3".

Definition UnknownOutput : jsstring := lit "0".
Definition Output : jsstring := lit "1".
Definition Pong : jsstring := lit "2".
Definition SetWindowTitle : jsstring := lit "3".
Definition SetPreferences : jsstring := lit "4".
Definition SetReconnect : jsstring := lit "5".

(** *** Identifiers

    What a bare identifier inside a callback of [open()] denotes: the scopes
    around it, innermost first, each with the names it binds.  A class
    method is a property of the prototype; its name is bound in no scope. *)

Inductive Callee :=
| LexicalBinding (depth : nat) (name : string)
| GlobalFunction (name : string)      (* a property of [window] *)
| Method (name : string).             (* [this.name], bound to the controller *)

Definition onClose_arrow_scope : list string := [].
Definition open_method_scope : list string := ["connection"%string].
Definition module_scope : list string :=
  ["protocols"; "InputUnknown"; "Input"; "Ping"; "ResizeTerminal";
   "UnknownOutput"; "Output"; "Pong"; "SetWindowTitle"; "SetPreferences";
   "SetReconnect"; "WebTTY"]%string.

Definition scope_chain : list (list string) :=
  [onClose_arrow_scope; open_method_scope; module_scope].

Fixpoint resolve_from (depth : nat) (chain : list (list string))
  (name : string) : Callee :=
  match chain with
  | [] => GlobalFunction name
  | scope :: outer =>
      if existsb (String.eqb name) scope then LexicalBinding depth name
      else resolve_from (S depth) outer name
  end.

Definition resolve (name : string) : Callee := resolve_from O scope_chain name.

(** *** State *)

(** Calls received by the terminal. *)
Inductive TermCall {O : Type} :=
| Write (data : jsstring)
| ShowMessage (message : jsstring) (timeout : Z)
| SetTitle (title : jsstring)
| SetPrefs (value : JSON.Value O).
Arguments TermCall O : clear implicits.

(** The constructor's arguments. *)
Record Config := { args : jsstring; authToken : jsstring }.

(** The controller with what surrounds it.  Connections are numbered in the
    order the factory creates them.  The terminal is one object shared by
    every call of [open()]: [term.on("data", ...)] and [term.on("resize",
    ...)] add a listener each time, and each listener closes over the
    connection of the call that registered it. *)
Record World {O : Type} := {
  reconnect : option (JSON.Value O);      (* [this.reconnect] *)
  created : nat;                          (* [connectionFactory.create()] calls *)
  sent : list (nat * jsstring);           (* [connection.send], oldest first *)
  input_listeners : list nat;
  resize_listeners : list nat;
  term_calls : list (TermCall O);         (* oldest first *)
  timeouts : list (Callee * Z)            (* the controller's [setTimeout(f, ms)] *)
}.
Arguments World O : clear implicits.

Section Controller.
Context {B : JSON.Builtin}.
Local Abbreviation JSValue := (JSON.Value JSON.Opaque).
Local Abbreviation W := (World JSON.Opaque).

Definition initial : W :=
  {| reconnect := None; created := O; sent := []; input_listeners := [];
     resize_listeners := []; term_calls := []; timeouts := [] |}.

Definition send (c : nat) (data : jsstring) (w : W) : W :=
  {| reconnect := reconnect w; created := created w;
     sent := sent w ++ [(c, data)];
     input_listeners := input_listeners w;
     resize_listeners := resize_listeners w;
     term_calls := term_calls w; timeouts := timeouts w |}.

Definition term (call : TermCall JSON.Opaque) (w : W) : W :=
  {| reconnect := reconnect w; created := created w; sent := sent w;
     input_listeners := input_listeners w;
     resize_listeners := resize_listeners w;
     term_calls := term_calls w ++ [call]; timeouts := timeouts w |}.

Definition term_onResize (c : nat) (w : W) : W :=
  {| reconnect := reconnect w; created := created w; sent := sent w;
     input_listeners := input_listeners w;
     resize_listeners := resize_listeners w ++ [c];
     term_calls := term_calls w; timeouts := timeouts w |}.

Definition term_onInput (c : nat) (w : W) : W :=
  {| reconnect := reconnect w; created := created w; sent := sent w;
     input_listeners := input_listeners w ++ [c];
     resize_listeners := resize_listeners w;
     term_calls := term_calls w; timeouts := timeouts w |}.

Definition set_reconnect (v : JSValue) (w : W) : W :=
  {| reconnect := Some v; created := created w; sent := sent w;
     input_listeners := input_listeners w;
     resize_listeners := resize_listeners w;
     term_calls := term_calls w; timeouts := timeouts w |}.

Definition setTimeout (f : Callee) (ms : Z) (w : W) : W :=
  {| reconnect := reconnect w; created := created w; sent := sent w;
     input_listeners := input_listeners w;
     resize_listeners := resize_listeners w;
     term_calls := term_calls w; timeouts := timeouts w ++ [(f, ms)] |}.

Definition factory_create (w : W) : nat * W :=
  (created w,
   {| reconnect := reconnect w; created := S (created w); sent := sent w;
      input_listeners := input_listeners w;
      resize_listeners := resize_listeners w;
      term_calls := term_calls w; timeouts := timeouts w |}).

(** *** The callbacks registered by [open()] *)

(** The listener given to [term.onResize]. *)
Definition resize_callback (c : nat) (columns rows : Z) (w : W) : W :=
  send c (ResizeTerminal ++ JSON.stringify_size columns rows) w.

(** The listener given to [term.onInput]. *)
Definition input_callback (c : nat) (input : jsstring) (w : W) : W :=
  send c (Input ++ input) w.

Definition onOpen (cfg : Config) (c : nat) (w : W) : W :=
  let w := send c (JSON.stringify_handshake (args cfg) (authToken cfg)) w in
  let w := term_onResize c w in
  term_onInput c w.

(** The decoding applied to the payload of an [Output] frame. *)
Definition decode_output (payload : jsstring) : Completion jsstring :=
  bin <- Base64.atob payload ;;
  URI.decodeURIComponent (URI.map_join URI.percent_escape bin).

(** [data[0]], with [None] for [undefined], against a one-character
    constant. *)
Definition first_is (data k : jsstring) : bool :=
  match hd_error data, k with
  | Some c, [d] => c =? d
  | _, _ => false
  end.

Definition onReceive (data : jsstring) (w : W) : Completion W :=
  let payload := tl data in
  if first_is data Output then
    text <- decode_output payload ;;
    Normal (term (Write text) w)
  else if first_is data Pong then Normal w
  else if first_is data SetWindowTitle then
    Normal (term (SetTitle payload) w)
  else if first_is data SetPreferences then
    preferences <- JSON.parse payload ;;
    Normal (term (SetPrefs preferences) w)
  else if first_is data SetReconnect then
    autoReconnect <- JSON.parse payload ;;
    Normal (set_reconnect autoReconnect w)
  else Normal w.

(** [this.reconnect > 0]; [undefined > 0] is false. *)
Definition reconnect_positive (r : option JSValue) : bool :=
  match r with
  | None => false
  | Some (JSON.Num n) => 0 <? n
  | Some (JSON.Other o) => JSON.other_gt_zero o
  end.

(** [this.reconnect * 1000], evaluated only under the test above. *)
Definition reconnect_millis (r : option JSValue) : Z :=
  match r with
  | None => 0
  | Some (JSON.Num n) => n * 1000
  | Some (JSON.Other o) => JSON.other_times_1000 o
  end.

Definition onClose (w : W) : W :=
  let w := term (ShowMessage (lit "disconnected") 0) w in
  if reconnect_positive (reconnect w)
  then setTimeout (resolve "open") (reconnect_millis (reconnect w)) w
  else w.

(** [open()]: the three callbacks above are attached to the new connection
    before [connection.open()] is called. *)
Definition open (w : W) : W := snd (factory_create w).

(** *** Events *)

Inductive Event :=
| CallOpen                                   (* the page calls [wt.open()] *)
| ConnOpen (c : nat)
| ConnReceive (c : nat) (data : jsstring)
| ConnClose (c : nat)
| TermInput (input : jsstring)               (* xterm's "data" *)
| TermResize (columns rows : Z)              (* xterm's "resize" *)
| TimerFire (k : nat).                       (* the k-th timeout expires *)

(** xterm's "resize" listener of [TermXterm.onResize]: the size is shown for
    [messageTimeout] milliseconds, then the controller's callback runs. *)
Definition xterm_resize_listener (c : nat) (columns rows : Z) (w : W) : W :=
  let w := term (ShowMessage
                   (JSON.number_to_string columns ++ lit " x "
                    ++ JSON.number_to_string rows) 2000) w in
  resize_callback c columns rows w.

(** What running a scheduled callee does to the controller. *)
Definition run_callee (f : Callee) (w : W) : W :=
  match f with
  | Method "open" => open w
  | _ => w
  end.

(** One event: the callbacks it runs, and the exception one of them let
    escape, if any.  A connection that was never created has no callbacks. *)
Definition step (cfg : Config) (w : W) (e : Event) : W * option Exn :=
  match e with
  | CallOpen => (open w, None)
  | ConnOpen c =>
      if (c <? created w)%nat then (onOpen cfg c w, None) else (w, None)
  | ConnReceive c data =>
      if (c <? created w)%nat then
        match onReceive data w with
        | Normal w' => (w', None)
        | Throw x => (w, Some x)
        end
      else (w, None)
  | ConnClose c =>
      if (c <? created w)%nat then (onClose w, None) else (w, None)
  | TermInput input =>
      (fold_left (fun w c => input_callback c input w) (input_listeners w) w,
       None)
  | TermResize columns rows =>
      (fold_left (fun w c => xterm_resize_listener c columns rows w)
         (resize_listeners w) w, None)
  | TimerFire k =>
      match nth_error (timeouts w) k with
      | Some (f, _) => (run_callee f w, None)
      | None => (w, None)
      end
  end.

Definition run (cfg : Config) (w : W) (events : list Event) : W :=
  fold_left (fun w e => fst (step cfg w e)) events w.

(** The bodies sent on connection [c], oldest first. *)
Definition sent_on (c : nat) (w : W) : list jsstring :=
  map snd (filter (fun m => (fst m =? c)%nat) (sent w)).

(** The bodies sent on a connection begin with the handshake, and a
    listener of the terminal is attached to a connection only after it. *)
Definition handshake_first (cfg : Config) (w : W) : Prop :=
  (forall c, In c (input_listeners w) -> sent_on c w <> []) /\
  (forall c, In c (resize_listeners w) -> sent_on c w <> []) /\
  (forall c, hd_error (sent_on c w) = None \/
             hd_error (sent_on c w)
             = Some (JSON.stringify_handshake (args cfg) (authToken cfg))).

End Controller.

(** A frame's payload: [data.slice(1)]. *)
Definition payload_of (frame : jsstring) : jsstring := tl frame.

End WebTTY.

(** ** The page script ([main.ts]) *)

Module Main.

(** [window.location]. *)
Record Location := {
  protocol : jsstring;
  hostname : jsstring;
  port : jsstring;
  pathname : jsstring;
  search : jsstring
}.

(** What [new ConnectionFactory(url, protocols)] is given. *)
Record ConnectionFactory := {
  url : jsstring;
  subprotocols : list jsstring
}.

Definition websocket_url (loc : Location) : jsstring :=
  let httpsEnabled := jseqb (protocol loc) (lit "https:") in
  (if httpsEnabled then lit "wss://" else lit "ws://")
  ++ hostname loc ++ lit ":8080" ++ pathname loc ++ lit "ws".

(** The script: nothing happens without the element [terminal]; with it, a
    controller is made and opened.  The result is the factory, the
    controller's arguments and the state after [wt.open()]. *)
Definition main {B : JSON.Builtin} (elem_found : bool) (loc : Location)
  : option (ConnectionFactory * WebTTY.Config * WebTTY.World JSON.Opaque) :=
  if elem_found then
    let factory := {| url := websocket_url loc;
                      subprotocols := WebTTY.protocols |} in
    let wt := {| WebTTY.args := search loc; WebTTY.authToken := lit "" |} in
    Some (factory, wt, WebTTY.open WebTTY.initial)
  else None.

End Main.

(** ** The server ([server.go]) *)

Module Server.
Local Open Scope string_scope.

(** The fields of [Options] that the code reads. *)
Record Options := {
  Address : string;
  Port : string;
  PermitWrite : bool;
  EnableBasicAuth : bool;
  Credential : string;
  EnableRandomUrl : bool;
  RandomUrlLength : Z;
  IndexFile : string;
  EnableTLS : bool;
  TLSCrtFile : string;
  TLSKeyFile : string;
  EnableTLSClientAuth : bool;
  TLSCACrtFile : string;
  Once : bool;
  Timeout : Z
}.

Inductive error :=
| ErrServerClosed                          (* [http.ErrServerClosed] *)
| Canceled                                 (* [context.Canceled] *)
| DeadlineExceeded                         (* [context.DeadlineExceeded] *)
| ErrNew (msg : string)                    (* [errors.New] *)
| ErrListen (msg : string)                 (* any other error of the listener *)
| Wrapf (cause : error) (msg : string).    (* [errors.Wrapf] *)

Definition error_eqb_closed (e : error) : bool :=
  match e with ErrServerClosed => true | _ => false end.

(** *** Requests and handlers *)

Record Request := {
  Method : string;                       (* [r.Method] *)
  RequestURI : string;                   (* [r.RequestURI], as it was sent *)
  Path : string;                         (* [r.URL.Path] *)
  BasicCredential : option string;       (* the user:pass pair presented *)
  Origin : option string;
  Host : string
}.

Inductive Leaf := StaticFile | CustomIndex | AuthTokenScript | WebSocket.

Inductive Layer := Logger | Headers | BasicAuth.

Inductive Outcome :=
| HandedTo (leaf : Leaf) (path : string)  (* a handler of the server runs *)
| Unauthorized                            (* 401 *)
| NotServed                               (* 404 of the mux or of StripPrefix *)
| Redirect (target : string)              (* 301 of the mux, to this path *)
| BadRequest.                             (* 400 of the mux *)

(** What became of a request: the wrappers that passed it on, outermost
    first, and where it ended. *)
Record Response := { layers : list Layer; outcome : Outcome }.

Definition Handler := Request -> Response.

Definition through (l : Layer) (r : Response) : Response :=
  {| layers := l :: layers r; outcome := outcome r |}.

Definition leaf_handler (leaf : Leaf) : Handler :=
  fun r => {| layers := []; outcome := HandedTo leaf (Path r) |}.

(** The handlers whose bodies are not part of the sources: the static file
    server, [handleCustomIndex], [handleAuthToken] and the handler made by
    [generateHandleWS], which upgrades the request and runs the session. *)
Definition staticFileHandler : Handler := leaf_handler StaticFile.
Definition handleCustomIndex : Handler := leaf_handler CustomIndex.
Definition handleAuthToken : Handler := leaf_handler AuthTokenScript.
Definition handleWS : Handler := leaf_handler WebSocket.

Definition NotFoundHandler : Handler :=
  fun _ => {| layers := []; outcome := NotServed |}.

(** [http.RedirectHandler(target, http.StatusMovedPermanently)]. *)
Definition RedirectHandler (target : string) : Handler :=
  fun _ => {| layers := []; outcome := Redirect target |}.

(** Modelled from the spec: [wrapBasicAuth] is not part of the sources.  "If
    credential configured, require a transport-level credential exchange
    [...] matching the configured user/pass; failure => Unauthorized". *)
Definition wrapBasicAuth (handler : Handler) (credential : string) : Handler :=
  fun r =>
    match BasicCredential r with
    | Some presented =>
        if String.eqb presented credential then through BasicAuth (handler r)
        else {| layers := []; outcome := Unauthorized |}
    | None => {| layers := []; outcome := Unauthorized |}
    end.

(** Modelled from the spec: [wrapHeaders] and [wrapLogger] are not part of
    the sources; the spec gives them no part in admission, so they hand
    every request to the handler they wrap. *)
Definition wrapHeaders (handler : Handler) : Handler :=
  fun r => through Headers (handler r).

Definition wrapLogger (handler : Handler) : Handler :=
  fun r => through Logger (handler r).

Fixpoint ends_with_slash (s : string) : bool :=
  match s with
  | EmptyString => false
  | String c EmptyString => Ascii.eqb c "/"
  | String _ s' => ends_with_slash s'
  end.

(** [strings.TrimPrefix]. *)
Fixpoint TrimPrefix (s prefix : string) {struct prefix} : option string :=
  match prefix, s with
  | EmptyString, _ => Some s
  | String a p', String b s' =>
      if Ascii.eqb a b then TrimPrefix s' p' else None
  | String _ _, EmptyString => None
  end.

(** [http.StripPrefix]: the request goes on only when trimming made the
    path shorter. *)
Definition StripPrefix (prefix : string) (h : Handler) : Handler :=
  fun r =>
    match TrimPrefix (Path r) prefix with
    | Some p =>
        if (String.length p <? String.length (Path r))%nat
        then h {| Method := Method r; RequestURI := RequestURI r;
                  Path := p; BasicCredential := BasicCredential r;
                  Origin := Origin r; Host := Host r |}
        else NotFoundHandler r
    | None => NotFoundHandler r
    end.

(** [http.ServeMux]: a pattern ending in a slash matches every path it is a
    prefix of, any other pattern matches itself; the longest matching
    pattern wins. *)
Definition pathMatch (pattern path : string) : bool :=
  if ends_with_slash pattern then String.prefix pattern path
  else String.eqb pattern path.

Definition ServeMux := list (string * Handler).

Fixpoint mux_match (mux : ServeMux) (path : string)
  (best : option (string * Handler)) : option (string * Handler) :=
  match mux with
  | [] => best
  | (k, h) :: rest =>
      if pathMatch k path then
        match best with
        | Some (k0, _) =>
            if (String.length k0 <? String.length k)%nat
            then mux_match rest path (Some (k, h))
            else mux_match rest path best
        | None => mux_match rest path (Some (k, h))
        end
      else mux_match rest path best
  end.

(** The elements of a path: [strings.Split(p, "/")]. *)
Fixpoint split_slash (s : string) : list string :=
  match s with
  | EmptyString => [EmptyString]
  | String c s' =>
      if Ascii.eqb c "/" then EmptyString :: split_slash s'
      else match split_slash s' with
           | seg :: segs => String c seg :: segs
           | [] => [String c EmptyString]
           end
  end.

(** [path.Clean] on a rooted path, element by element: empty elements and
    [.] are dropped, [..] drops the element before it, and is itself
    dropped at the root.  [kept] holds the elements kept so far, last
    first. *)
Fixpoint clean_elements (kept : list string) (segs : list string)
  : list string :=
  match segs with
  | [] => rev kept
  | seg :: rest =>
      if String.eqb seg "" || String.eqb seg "." then clean_elements kept rest
      else if String.eqb seg ".." then clean_elements (tl kept) rest
      else clean_elements (seg :: kept) rest
  end.

Fixpoint join_slash (segs : list string) : string :=
  match segs with
  | [] => ""
  | [seg] => seg
  | seg :: rest => seg ++ "/" ++ join_slash rest
  end.

Definition Clean_rooted (p : string) : string :=
  "/" ++ join_slash (clean_elements [] (split_slash p)).

(** [cleanPath] of net/http: the canonical path, rooted, without [.] and
    [..] elements and repeated slashes, and with the final slash the path
    had. *)
Definition cleanPath (p : string) : string :=
  if String.eqb p "" then "/"
  else
    let p := if String.prefix "/" p then p else "/" ++ p in
    let np := Clean_rooted p in
    if ends_with_slash p && negb (String.eqb np "/") then np ++ "/" else np.

Definition registered (mux : ServeMux) (pattern : string) : bool :=
  existsb (fun e => String.eqb (fst e) pattern) mux.

(** [shouldRedirectRLocked]: the path is not registered but the path with
    a final slash is.  (No pattern of this server names a host.) *)
Definition shouldRedirect (mux : ServeMux) (path : string) : bool :=
  if registered mux path then false
  else if (String.length path =? 0)%nat then false
  else if registered mux (path ++ "/") then negb (ends_with_slash path)
  else false.

(** The path [ServeMux.Handler] looks up: the canonical one, but the path
    as it is for a CONNECT request, which is not made canonical. *)
Definition mux_path (r : Request) : string :=
  if String.eqb (Method r) "CONNECT" then Path r else cleanPath (Path r).

(** [ServeMux.ServeHTTP] and [ServeMux.Handler]: the request target [*] is
    a bad request; a path [/tree] whose subtree [/tree/] is registered, and
    a path that is not canonical, are answered with a redirect; any other
    path is matched. *)
Definition mux_handler (mux : ServeMux) : Handler :=
  fun r =>
    if String.eqb (RequestURI r) "*"
    then {| layers := []; outcome := BadRequest |}
    else
      let path := mux_path r in
      if shouldRedirect mux path then RedirectHandler (path ++ "/") r
      else if negb (String.eqb path (Path r)) then RedirectHandler path r
      else
        match mux_match mux (Path r) None with
        | Some (_, h) => h r
        | None => NotFoundHandler r
        end.

(** *** The server *)

Record URL := { Scheme : string; URLHost : string; URLPath : string }.

Record Upgrader := {
  ReadBufferSize : Z;
  WriteBufferSize : Z;
  Subprotocols : list string;
  CheckOrigin : Request -> bool
}.

Record Server := {
  options : Options;
  upgrader : Upgrader;
  url : option URL;
  connections : Z;
  once : Z
}.

(** Modelled from the spec: [webtty.Protocols] of the server is not part of
    the sources; "subprotocol negotiated as a fixed token", the one the
    client offers. *)
Definition webtty_Protocols : list string := ["webtty"].

Definition New {F : Type} (factory : F) (options : Options)
  : Server * option error :=
  ({| options := options;
      upgrader := {| ReadBufferSize := 1024;
                     WriteBufferSize := 1024;
                     Subprotocols := webtty_Protocols;
                     CheckOrigin := fun r => true |};
      url := None;
      connections := 0;
      once := 0 |}, None).

(** [net.JoinHostPort]: a host with a colon in it is bracketed. *)
Fixpoint has_colon (s : string) : bool :=
  match s with
  | EmptyString => false
  | String c s' => Ascii.eqb c ":" || has_colon s'
  end.

Definition JoinHostPort (host port : string) : string :=
  if has_colon host then "[" ++ host ++ "]:" ++ port
  else host ++ ":" ++ port.

Section Handlers.

(** [randomstring.Generate], which is not part of the sources. *)
Variable Generate : Z -> string.

(** [server.URL()]: computed on first use, then kept. *)
Definition get_URL (server : Server) : URL * Server :=
  match url server with
  | Some u => (u, server)
  | None =>
      let o := options server in
      let host := JoinHostPort (Address o) (Port o) in
      let path := if EnableRandomUrl o
                  then "" ++ "/" ++ Generate (RandomUrlLength o) else "" in
      let scheme := if EnableTLS o then "https" else "http" in
      let u := {| Scheme := scheme; URLHost := host; URLPath := path ++ "/" |} in
      (u, {| options := o; upgrader := upgrader server; url := Some u;
             connections := connections server; once := once server |})
  end.

Definition setupHandlers (server : Server) : Handler * Server :=
  let (url, server) := get_URL server in
  let o := options server in
  let siteMux : ServeMux :=
    [ (URLPath url,
       if negb (String.eqb (IndexFile o) "")
       then handleCustomIndex
       else StripPrefix (URLPath url) staticFileHandler);
      (URLPath url ++ "js/", StripPrefix (URLPath url) staticFileHandler);
      (URLPath url ++ "favicon.png", StripPrefix (URLPath url) staticFileHandler);
      (URLPath url ++ "auth_token.js", handleAuthToken) ] in
  let siteHandler := mux_handler siteMux in
  let siteHandler :=
    if EnableBasicAuth o then wrapBasicAuth siteHandler (Credential o)
    else siteHandler in
  let siteHandler := wrapHeaders siteHandler in
  let wsMux : ServeMux :=
    [ ("/", siteHandler); (URLPath url ++ "ws", handleWS) ] in
  let siteHandler := mux_handler wsMux in
  (wrapLogger siteHandler, server).

End Handlers.

(** Concrete inputs: a server with basic authentication on the fixed path
    [/], and two requests that present no credential. *)
Definition basic_auth_options : Options :=
  {| Address := "0.0.0.0"; Port := "8080"; PermitWrite := false;
     EnableBasicAuth := true; Credential := "user:pass";
     EnableRandomUrl := false; RandomUrlLength := 8;
     IndexFile := ""; EnableTLS := false; TLSCrtFile := ""; TLSKeyFile := "";
     EnableTLSClientAuth := false; TLSCACrtFile := "";
     Once := false; Timeout := 0 |}.

Definition no_random : Z -> string := fun _ => "".

Definition anonymous_ws_request : Request :=
  {| Method := "GET"; RequestURI := "/ws"; Path := "/ws";
     BasicCredential := None; Origin := None;
     Host := "localhost:8080" |}.

Definition anonymous_index_request : Request :=
  {| Method := "GET"; RequestURI := "/"; Path := "/";
     BasicCredential := None; Origin := None;
     Host := "localhost:8080" |}.

Definition anonymous_unclean_request : Request :=
  {| Method := "GET"; RequestURI := "//ws"; Path := "//ws";
     BasicCredential := None; Origin := None;
     Host := "localhost:8080" |}.

Definition member_js_root_request : Request :=
  {| Method := "GET"; RequestURI := "/js"; Path := "/js";
     BasicCredential := Some "user:pass";
     Origin := None; Host := "localhost:8080" |}.

Definition member_js_request : Request :=
  {| Method := "GET"; RequestURI := "/js/gotty.js"; Path := "/js/gotty.js";
     BasicCredential := Some "user:pass";
     Origin := None; Host := "localhost:8080" |}.

End Server.

(** ** [Server.Run] and the lifecycle of the server *)

Module Lifecycle.
Import Server.
Local Open Scope string_scope.

(** What the file system answers to [tlsConfig]. *)
Record Files := {
  ca_file_read : bool;          (* [ioutil.ReadFile(caFile)] succeeded *)
  ca_pem_appended : bool        (* [AppendCertsFromPEM] found a certificate *)
}.

Section Run.

(** [homedir.Expand], which is not part of the sources. *)
Variable Expand : string -> string.

Definition tlsConfig (o : Options) (fs : Files) : option error :=
  let caFile := Expand (TLSCACrtFile o) in
  if negb (ca_file_read fs)
  then Some (ErrNew ("Could not open CA crt file " ++ caFile))
  else if negb (ca_pem_appended fs)
  then Some (ErrNew ("Could not parse CA crt file data in " ++ caFile))
  else None.

Definition setupHTTPServer (o : Options) (fs : Files) : option error :=
  if EnableTLSClientAuth o then
    match tlsConfig o fs with
    | Some err => Some (Wrapf err "failed to setup TLS configuration")
    | None => None
    end
  else None.

(** What ends the serving phase. *)
Inductive Trigger :=
| GracefulDone                  (* [opts.gracefullCtx] is done *)
| TimerFired                    (* [server.timer.C] delivers *)
| ListenFailed (e : error)      (* [ListenAndServe] returns by itself *)
| CallerDone (e : error)        (* the [ctx] given to [Run] is done *)
| HandlerCancelled.             (* the [cancel] given to the websocket
                                   handler is called *)

(** The timer exists only for a positive [Timeout]; the listener returns
    [ErrServerClosed] only after [Shutdown] or [Close]; a context ends
    cancelled or past its deadline. *)
Definition possible (o : Options) (t : Trigger) : bool :=
  match t with
  | TimerFired => (0 <? Timeout o)%Z
  | ListenFailed e => negb (error_eqb_closed e)
  | CallerDone e =>
      match e with Canceled | DeadlineExceeded => true | _ => false end
  | _ => true
  end.

(** The goroutine of the timer: [cancel()] on [timer.C]. *)
Definition timer_goroutine (t : Trigger) : bool :=
  match t with TimerFired => true | _ => false end.

(** The goroutine of the graceful context: [srv.Shutdown] when it is done,
    which makes the listener return [ErrServerClosed]. *)
Definition graceful_goroutine (t : Trigger) : bool :=
  match t with GracefulDone => true | _ => false end.

(** The goroutine of the listener: a non-nil result goes to [listenErr]. *)
Definition listen_goroutine (t : Trigger) : option error :=
  match t with
  | ListenFailed e => Some e
  | _ => if graceful_goroutine t then Some ErrServerClosed else None
  end.

(** [cctx.Err()] once the trigger has happened: [cctx] is a child of [ctx]
    and is cancelled by any call of [cancel]. *)
Definition cctx_Err (t : Trigger) : option error :=
  match t with
  | CallerDone e => Some e
  | HandlerCancelled => Some Canceled
  | _ => if timer_goroutine t then Some Canceled else None
  end.

Inductive Selected :=
| FromListenErr (e : error)     (* [case err = <-listenErr] *)
| FromDone (e : error).         (* [case <-cctx.Done()] *)

Definition main_select (t : Trigger) : option Selected :=
  match listen_goroutine t, cctx_Err t with
  | Some e, _ => Some (FromListenErr e)
  | None, Some e => Some (FromDone e)
  | None, None => None
  end.

(** The value of [err] when [Run] returns.  In the [Done] case [srv.Close()]
    makes the listener return [ErrServerClosed], which its goroutine stores
    in the same variable [err]; [late_write] says that this store lands
    after the one of the main goroutine. *)
Definition after_select (sel : Selected) (late_write : bool) : option error :=
  match sel with
  | FromListenErr e =>
      if error_eqb_closed e then None else Some e
  | FromDone e =>
      if late_write then Some ErrServerClosed else Some e
  end.

(** The control points of [Run] after the set-up. *)
Inductive PC :=
| Serving                          (* blocked in the [select] *)
| Waiting (err : option error)     (* blocked in [server.wsWG.Wait()] *)
| Returned (err : option error).

Record Coordinator := {
  pc : PC;
  wsWG : nat;                      (* counter of the wait group *)
  active : Z                       (* [*server.connections] *)
}.

Inductive Label :=
| Register                         (* a session is admitted *)
| Deregister                       (* a session has ended *)
| Shutdown (t : Trigger) (late_write : bool)
| WaitReturns.

(** [Run] up to its [select]: a failed set-up returns at once. *)
Definition start (o : Options) (fs : Files) : Coordinator :=
  match setupHTTPServer o fs with
  | Some err =>
      {| pc := Returned (Some (Wrapf err "failed to setup an HTTP server"));
         wsWG := 0; active := 0 |}
  | None => {| pc := Serving; wsWG := 0; active := 0 |}
  end.

(** Modelled from the spec: the websocket handler, which registers and
    deregisters sessions, is not part of the sources.  "On success:
    registers the new Session with the Coordinator (atomic increment, add to
    drain set)"; "Draining: [...] No new registrations accepted"; every
    session deregisters once when it ends. *)
Definition session_step (s : Coordinator) (l : Label) : option Coordinator :=
  match l, pc s with
  | Register, Serving =>
      Some {| pc := Serving; wsWG := S (wsWG s); active := (active s + 1)%Z |}
  | Deregister, Serving | Deregister, Waiting _ =>
      match wsWG s with
      | S n => Some {| pc := pc s; wsWG := n; active := (active s - 1)%Z |}
      | O => None
      end
  | _, _ => None
  end.

(** One step of the server: a step of a session, or a step of [Run].
    [Wait] returns only when the counter of the wait group is zero. *)
Definition step (o : Options) (s : Coordinator) (l : Label)
  : option Coordinator :=
  match l with
  | Register | Deregister => session_step s l
  | Shutdown t late_write =>
      match pc s, main_select t with
      | Serving, Some sel =>
          if possible o t
          then Some {| pc := Waiting (after_select sel late_write);
                       wsWG := wsWG s; active := active s |}
          else None
      | _, _ => None
      end
  | WaitReturns =>
      match pc s, wsWG s with
      | Waiting err, O =>
          Some {| pc := Returned err; wsWG := O; active := active s |}
      | _, _ => None
      end
  end.

Fixpoint exec (o : Options) (s : Coordinator) (trace : list Label)
  : option Coordinator :=
  match trace with
  | [] => Some s
  | l :: rest =>
      match step o s l with
      | Some s' => exec o s' rest
      | None => None
      end
  end.

(** [Run] as a function of what happens while it runs: the sessions
    admitted and ended and the trigger, in their order. *)
Definition Run (o : Options) (fs : Files) (trace : list Label)
  : option (option error) :=
  match exec o (start o fs) trace with
  | Some {| pc := Returned err |} => Some err
  | _ => None
  end.

Definition deregistrations (trace : list Label) : nat :=
  length (filter (fun l => match l with Deregister => true | _ => false end)
            trace).

Definition timer_or_listener_failure (t : Trigger) : bool :=
  match t with
  | TimerFired | ListenFailed _ => true
  | _ => false
  end.

End Run.

Definition no_files : Files := {| ca_file_read := false; ca_pem_appended := false |}.

End Lifecycle.

(** ** Options of [Run] ([run_option.go]) *)

Module RunOption.

Section Options.

(** [context.Context]. *)
Variable Context : Type.

Record RunOptions := { gracefullCtx : Context }.

(** A [RunOption] updates the options it is given. *)
Definition RunOption := RunOptions -> RunOptions.

Definition WithGracefullContext (ctx : Context) : RunOption :=
  fun options => {| gracefullCtx := ctx |}.

(** The first lines of [Run]: the options start at [context.Background()]
    and every [opt] is applied in turn. *)
Definition apply_options (background : Context) (options : list RunOption)
  : RunOptions :=
  fold_left (fun opts opt => opt opts) options
    {| gracefullCtx := background |}.

End Options.

End RunOption.

(** A concrete input: a server that requires client certificates. *)
Definition client_auth_options : Server.Options :=
  {| Server.Address := "0.0.0.0"; Server.Port := "8080";
     Server.PermitWrite := false; Server.EnableBasicAuth := false;
     Server.Credential := ""; Server.EnableRandomUrl := false;
     Server.RandomUrlLength := 8; Server.IndexFile := "";
     Server.EnableTLS := true; Server.TLSCrtFile := "~/.gotty.crt";
     Server.TLSKeyFile := "~/.gotty.key"; Server.EnableTLSClientAuth := true;
     Server.TLSCACrtFile := "~/.gotty.ca.crt"; Server.Once := false;
     Server.Timeout := 0 |}.

(** ** The terminal widget ([xterm.ts]) *)

Module Xterm.

(** The two callbacks [TermXterm] gives to [setTimeout]. *)
Inductive Task :=
| RemoveMessage          (* [this.elem.removeChild(this.message)] *)
| FitReset.              (* [this.term.fit(); this.term.reset()] *)

Record Timer := { id : nat; task : Task; delay : Z }.

Record TermXterm := {
  textContent : jsstring;         (* [this.message.textContent] *)
  attached : bool;                (* [this.message] is a child of [this.elem] *)
  messageTimeout : Z;
  messageTimer : option nat;      (* [undefined] until the first timer *)
  resizing : option nat;          (* the variable [resizing] of the constructor *)
  listening : bool;               (* [resizeListener] is on [window] *)
  next_timer : nat;               (* the id the next [setTimeout] returns *)
  pending : list Timer;           (* timers set and neither fired nor cleared *)
  fits : nat;                     (* runs of [fit(); reset()] *)
  console : list jsstring;        (* [console.log] *)
  title : jsstring;               (* [document.title] *)
  written : list jsstring         (* [this.term.write] *)
}.

(** The constructor, up to [this.term.open(elem, true)]; [first_id] is the
    id the page's next timer gets (ids are positive). *)
Definition constructor (first_id : nat) : TermXterm :=
  {| textContent := []; attached := false; messageTimeout := 2000;
     messageTimer := None; resizing := None; listening := false;
     next_timer := first_id; pending := []; fits := O; console := [];
     title := []; written := [] |}.

Definition setTimeout (t : Task) (ms : Z) (x : TermXterm) : nat * TermXterm :=
  (next_timer x,
   {| textContent := textContent x; attached := attached x;
      messageTimeout := messageTimeout x; messageTimer := messageTimer x;
      resizing := resizing x; listening := listening x;
      next_timer := S (next_timer x);
      pending := pending x ++ [{| id := next_timer x; task := t; delay := ms |}];
      fits := fits x; console := console x; title := title x;
      written := written x |}).

Definition clearTimeout (i : nat) (x : TermXterm) : TermXterm :=
  {| textContent := textContent x; attached := attached x;
     messageTimeout := messageTimeout x; messageTimer := messageTimer x;
     resizing := resizing x; listening := listening x;
     next_timer := next_timer x;
     pending := filter (fun t => negb (id t =? i)%nat) (pending x);
     fits := fits x; console := console x; title := title x;
     written := written x |}.

Definition set_messageTimer (i : nat) (x : TermXterm) : TermXterm :=
  {| textContent := textContent x; attached := attached x;
     messageTimeout := messageTimeout x; messageTimer := Some i;
     resizing := resizing x; listening := listening x;
     next_timer := next_timer x; pending := pending x;
     fits := fits x; console := console x; title := title x;
     written := written x |}.

Definition set_resizing (i : nat) (x : TermXterm) : TermXterm :=
  {| textContent := textContent x; attached := attached x;
     messageTimeout := messageTimeout x; messageTimer := messageTimer x;
     resizing := Some i; listening := listening x;
     next_timer := next_timer x; pending := pending x;
     fits := fits x; console := console x; title := title x;
     written := written x |}.

Definition set_listening (b : bool) (x : TermXterm) : TermXterm :=
  {| textContent := textContent x; attached := attached x;
     messageTimeout := messageTimeout x; messageTimer := messageTimer x;
     resizing := resizing x; listening := b;
     next_timer := next_timer x; pending := pending x;
     fits := fits x; console := console x; title := title x;
     written := written x |}.

Definition set_attached (b : bool) (x : TermXterm) : TermXterm :=
  {| textContent := textContent x; attached := b;
     messageTimeout := messageTimeout x; messageTimer := messageTimer x;
     resizing := resizing x; listening := listening x;
     next_timer := next_timer x; pending := pending x;
     fits := fits x; console := console x; title := title x;
     written := written x |}.

(** [console.log(message); this.message.textContent = message;
    this.elem.appendChild(this.message)]. *)
Definition show (message : jsstring) (x : TermXterm) : TermXterm :=
  {| textContent := message; attached := true;
     messageTimeout := messageTimeout x; messageTimer := messageTimer x;
     resizing := resizing x; listening := listening x;
     next_timer := next_timer x; pending := pending x;
     fits := fits x; console := console x ++ [message]; title := title x;
     written := written x |}.

(** [if (this.messageTimer)]: a number is truthy unless it is zero. *)
Definition truthy (t : option nat) : bool :=
  match t with
  | Some i => negb (i =? 0)%nat
  | None => false
  end.

Definition showMessage (message : jsstring) (timeout : Z) (x : TermXterm)
  : TermXterm :=
  let x := show message x in
  if 0 <? timeout then
    let x := if truthy (messageTimer x)
             then match messageTimer x with
                  | Some i => clearTimeout i x
                  | None => x
                  end
             else x in
    let (i, x) := setTimeout RemoveMessage timeout x in
    set_messageTimer i x
  else x.

(** The closure [this.resizeListener]. *)
Definition resizeListener (x : TermXterm) : TermXterm :=
  let x := match resizing x with
           | Some i => clearTimeout i x
           | None => x
           end in
  let (i, x) := setTimeout FitReset 200 x in
  set_resizing i x.

(** The listener of the widget's "open" event. *)
Definition on_open (x : TermXterm) : TermXterm :=
  set_listening true (resizeListener x).

Definition close (x : TermXterm) : TermXterm := set_listening false x.

Definition write (data : jsstring) (x : TermXterm) : TermXterm :=
  {| textContent := textContent x; attached := attached x;
     messageTimeout := messageTimeout x; messageTimer := messageTimer x;
     resizing := resizing x; listening := listening x;
     next_timer := next_timer x; pending := pending x;
     fits := fits x; console := console x; title := title x;
     written := written x ++ [data] |}.

Definition setWindowTitle (t : jsstring) (x : TermXterm) : TermXterm :=
  {| textContent := textContent x; attached := attached x;
     messageTimeout := messageTimeout x; messageTimer := messageTimer x;
     resizing := resizing x; listening := listening x;
     next_timer := next_timer x; pending := pending x;
     fits := fits x; console := console x; title := t;
     written := written x |}.

Definition setPreferences {O : Type} (value : JSON.Value O) (x : TermXterm)
  : TermXterm := x.

(** The calls the controller makes, on this terminal. *)
Definition call {O : Type} (c : WebTTY.TermCall O) (x : TermXterm)
  : TermXterm :=
  match c with
  | WebTTY.Write data => write data x
  | WebTTY.ShowMessage message timeout => showMessage message timeout x
  | WebTTY.SetTitle t => setWindowTitle t x
  | WebTTY.SetPrefs value => setPreferences value x
  end.

(** Running a callback.  [removeChild] throws [NotFoundError] when the node
    is not a child; that is [None]. *)
Definition run_task (t : Task) (x : TermXterm) : option TermXterm :=
  match t with
  | RemoveMessage => if attached x then Some (set_attached false x) else None
  | FitReset =>
      Some {| textContent := textContent x; attached := attached x;
              messageTimeout := messageTimeout x;
              messageTimer := messageTimer x; resizing := resizing x;
              listening := listening x; next_timer := next_timer x;
              pending := pending x; fits := S (fits x);
              console := console x; title := title x;
              written := written x |}
  end.

Inductive Event :=
| Opened                                  (* the widget emits "open" *)
| WindowResize                            (* the window emits "resize" *)
| Show (message : jsstring) (timeout : Z) (* [showMessage] is called *)
| Fire (i : nat)                          (* the timer [i] expires *)
| Close.                                  (* [close] is called *)

(** One event.  A timer that is not pending does not expire. *)
Definition step (x : TermXterm) (e : Event) : option TermXterm :=
  match e with
  | Opened => Some (on_open x)
  | WindowResize => Some (if listening x then resizeListener x else x)
  | Show message timeout => Some (showMessage message timeout x)
  | Fire i =>
      match find (fun t => (id t =? i)%nat) (pending x) with
      | Some t => run_task (task t) (clearTimeout i x)
      | None => Some x
      end
  | Close => Some (close x)
  end.

Fixpoint run (x : TermXterm) (events : list Event) : option TermXterm :=
  match events with
  | [] => Some x
  | e :: rest =>
      match step x e with
      | Some x' => run x' rest
      | None => None
      end
  end.

Definition count_task (t : Task) (x : TermXterm) : nat :=
  length (filter (fun p => match task p, t with
                           | RemoveMessage, RemoveMessage => true
                           | FitReset, FitReset => true
                           | _, _ => false
                           end) (pending x)).

(** What holds of the timers in every state the widget reaches. *)
Definition timers_consistent (x : TermXterm) : Prop :=
  (1 <= next_timer x)%nat /\
  NoDup (map id (pending x)) /\
  (forall t, In t (pending x) -> (id t < next_timer x)%nat) /\
  (forall t, In t (pending x) -> task t = RemoveMessage ->
             messageTimer x = Some (id t) /\ attached x = true) /\
  (forall t, In t (pending x) -> task t = FitReset ->
             resizing x = Some (id t)) /\
  (forall i, messageTimer x = Some i -> (1 <= i < next_timer x)%nat) /\
  (forall i, resizing x = Some i -> (i < next_timer x)%nat) /\
  (forall i, messageTimer x = Some i -> resizing x <> Some i).

End Xterm.

(** ** What the controller sends and schedules *)

Module Traffic.
Import WebTTY.

Section Controller.
Context {B : JSON.Builtin}.

(** The three bodies [open()] has a [connection.send] for. *)
Definition controller_body (cfg : Config) (b : jsstring) : Prop :=
  b = JSON.stringify_handshake (args cfg) (authToken cfg) \/
  (exists input, b = Input ++ input) \/
  (exists columns rows, b = ResizeTerminal ++ JSON.stringify_size columns rows).

(** An event that stores no reconnect delay the close handler would act
    on: anything but a [SetReconnect] frame whose payload parses to a value
    [v] with [v > 0]. *)
Definition stores_no_delay (e : Event) : Prop :=
  match e with
  | ConnReceive _ data =>
      hd_error data = Some 53 ->
      match JSON.parse (tl data) with
      | Normal v => reconnect_positive (Some v) = false
      | Throw _ => True
      end
  | _ => True
  end.

End Controller.

End Traffic.

(** * Properties *)

(** ** Base64 round trip *)

Module Base64Facts.
Import Base64.

Example encode_Man : EncodeToString (lit "Man") = lit "TWFu".
Proof. reflexivity. Qed.

Example encode_Ma : EncodeToString (lit "Ma") = lit "TWE=".
Proof. reflexivity. Qed.

Example atob_Ma : atob (lit "TWE=") = Normal (lit "Ma").
Proof. reflexivity. Qed.

Example atob_whitespace : atob (lit "TW E") = Normal (lit "Ma").
Proof. reflexivity. Qed.

Example atob_bad_length : atob (lit "TWFuT") = Throw InvalidCharacterError.
Proof. reflexivity. Qed.

Example atob_bad_character : atob (lit "TW-u") = Throw InvalidCharacterError.
Proof. reflexivity. Qed.

Lemma list_ind3 (A : Type) (P : list A -> Prop) :
  P [] -> (forall a, P [a]) -> (forall a b, P [a; b]) ->
  (forall a b c l, P l -> P (a :: b :: c :: l)) ->
  forall l, P l.
Proof.
  intros H0 H1 H2 H3.
  assert (H : forall l, P l /\ (forall a, P (a :: l)) /\ (forall a b, P (a :: b :: l))).
  { induction l as [|x l [IH0 [IH1 IH2]]].
    - repeat split; auto.
    - repeat split; auto. }
  intro l. apply H.
Qed.

Lemma dec_enc_char (s : Z) : 0 <= s < 64 -> dec_char (enc_char s) = Some s.
Proof.
  intro Hs. unfold enc_char.
  destruct (Z.ltb_spec s 26); [|destruct (Z.ltb_spec s 52);
    [|destruct (Z.ltb_spec s 62); [|destruct (Z.eqb_spec s 62)]]];
  unfold dec_char;
  repeat match goal with
  | |- context [?a <=? ?b] => destruct (Z.leb_spec a b); cbn [andb orb negb]
  | |- context [?a =? ?b] => destruct (Z.eqb_spec a b); cbn [andb orb negb]
  end; try (f_equal; lia); lia.
Qed.

Lemma enc_char_plain (s : Z) :
  0 <= s < 64 -> is_ascii_whitespace (enc_char s) = false /\ enc_char s <> 61.
Proof.
  intro Hs. unfold enc_char, is_ascii_whitespace.
  destruct (Z.ltb_spec s 26); [|destruct (Z.ltb_spec s 52);
    [|destruct (Z.ltb_spec s 62); [|destruct (Z.eqb_spec s 62)]]];
  (split; [ repeat match goal with
            | |- context [?a =? ?b] => destruct (Z.eqb_spec a b); cbn [andb orb negb]
            end; try reflexivity; lia | lia ]).
Qed.

Lemma strip_whitespace_plain (s : jsstring) :
  Forall (fun c => is_ascii_whitespace c = false) s -> strip_whitespace s = s.
Proof.
  unfold strip_whitespace. induction 1 as [|c s Hc _ IH]; simpl.
  - reflexivity.
  - rewrite Hc. simpl. now rewrite IH.
Qed.

Lemma strip_padding_spec (body : jsstring) (k : nat) :
  Forall (fun c => c <> 61) body -> (k <= 2)%nat ->
  Z.of_nat (length (body ++ repeat 61 k)) mod 4 = 0 ->
  strip_padding (body ++ repeat 61 k) = body.
Proof.
  intros Hb Hk Hlen. unfold strip_padding.
  rewrite Hlen. simpl.
  assert (Hrev : match rev body with
                 | 61 :: _ => False
                 | _ => True
                 end).
  { destruct (rev body) as [|x r] eqn:E; [exact I|].
    assert (Hx : x <> 61).
    { rewrite Forall_forall in Hb. apply Hb. apply in_rev. rewrite E. now left. }
    destruct x as [|p|p]; try exact I.
    do 6 (destruct p as [p|p|]; try exact I). now elim Hx. }
  destruct k as [|[|[|k]]]; try lia; simpl repeat.
  - rewrite app_nil_r.
    destruct (rev body) as [|x r] eqn:E; [reflexivity|].
    destruct x as [|p|p]; try reflexivity.
    do 6 (destruct p as [p|p|]; try reflexivity). now elim Hrev.
  - rewrite rev_app_distr. simpl.
    destruct (rev body) as [|x r] eqn:E.
    + simpl. rewrite <- (rev_involutive body), E. reflexivity.
    + destruct x as [|p|p];
        try (rewrite <- E, rev_involutive; reflexivity).
      do 6 (destruct p as [p|p|];
            try (rewrite <- E, rev_involutive; reflexivity)).
      now elim Hrev.
  - rewrite rev_app_distr. simpl. apply rev_involutive.
Qed.

(** The shape of an encoded string: characters of the alphabet that decode
    to the source, then at most two pad characters. *)
Lemma encode_shape (src : list Z) :
  Forall byte src ->
  exists body k sx,
    EncodeToString src = body ++ repeat 61 k /\ (k <= 2)%nat /\
    Forall (fun c => is_ascii_whitespace c = false) body /\
    Forall (fun c => c <> 61) body /\
    sextets_of body = Some sx /\ bytes_of_sextets sx = src /\
    (exists q r, length body = (4 * q + r)%nat /\ (r = 0 \/ r = 2 \/ r = 3)%nat) /\
    (exists q, length (body ++ repeat 61 k) = (4 * q)%nat).
Proof.
  unfold byte.
  induction src as [|a|a b|a b c rest IH] using list_ind3; intro Hsrc.
  - exists [], O, []. simpl. repeat split; auto.
    + exists O, O. auto.
    + exists O. reflexivity.
  - inversion_clear Hsrc as [|? ? Ha _].
    assert (H0 : 0 <= a / 4 < 64) by (Z.div_mod_to_equations; lia).
    assert (H1 : 0 <= a mod 4 * 16 < 64) by (Z.div_mod_to_equations; lia).
    exists [enc_char (a / 4); enc_char (a mod 4 * 16)], 2%nat,
           [a / 4; a mod 4 * 16].
    simpl. rewrite !dec_enc_char by assumption.
    repeat split; auto.
    + repeat constructor; now apply enc_char_plain.
    + repeat constructor; now apply enc_char_plain.
    + f_equal. Z.div_mod_to_equations; lia.
    + exists O, 2%nat. auto.
    + exists 1%nat. reflexivity.
  - inversion_clear Hsrc as [|? ? Ha Hsrc']. inversion_clear Hsrc' as [|? ? Hb _].
    assert (H0 : 0 <= a / 4 < 64) by (Z.div_mod_to_equations; lia).
    assert (H1 : 0 <= a mod 4 * 16 + b / 16 < 64) by (Z.div_mod_to_equations; lia).
    assert (H2 : 0 <= b mod 16 * 4 < 64) by (Z.div_mod_to_equations; lia).
    exists [enc_char (a / 4); enc_char (a mod 4 * 16 + b / 16);
            enc_char (b mod 16 * 4)], 1%nat,
           [a / 4; a mod 4 * 16 + b / 16; b mod 16 * 4].
    simpl. rewrite !dec_enc_char by assumption.
    repeat split; auto.
    + repeat constructor; now apply enc_char_plain.
    + repeat constructor; now apply enc_char_plain.
    + f_equal; [|f_equal]; Z.div_mod_to_equations; lia.
    + exists O, 3%nat. auto.
    + exists 1%nat. reflexivity.
  - inversion_clear Hsrc as [|? ? Ha Hsrc']. inversion_clear Hsrc' as [|? ? Hb Hsrc].
    inversion_clear Hsrc as [|? ? Hc Hrest].
    destruct (IH Hrest) as (body & k & sx & He & Hk & Hws & Hpad & Hsx & Hbytes
                            & (q & r & Hlen & Hr) & (q' & Hlen')).
    assert (H0 : 0 <= a / 4 < 64) by (Z.div_mod_to_equations; lia).
    assert (H1 : 0 <= a mod 4 * 16 + b / 16 < 64) by (Z.div_mod_to_equations; lia).
    assert (H2 : 0 <= b mod 16 * 4 + c / 64 < 64) by (Z.div_mod_to_equations; lia).
    assert (H3 : 0 <= c mod 64 < 64) by (Z.div_mod_to_equations; lia).
    exists (enc_char (a / 4) :: enc_char (a mod 4 * 16 + b / 16)
            :: enc_char (b mod 16 * 4 + c / 64) :: enc_char (c mod 64) :: body),
           k,
           (a / 4 :: a mod 4 * 16 + b / 16 :: b mod 16 * 4 + c / 64
            :: c mod 64 :: sx).
    repeat split; auto.
    + cbn [EncodeToString]. rewrite He. reflexivity.
    + repeat constructor; try now apply enc_char_plain. assumption.
    + repeat constructor; try now apply enc_char_plain. assumption.
    + cbn [sextets_of]. rewrite !dec_enc_char, Hsx by assumption. reflexivity.
    + cbn [bytes_of_sextets]. rewrite Hbytes.
      f_equal; [|f_equal; [|f_equal]]; Z.div_mod_to_equations; lia.
    + exists (S q), r. simpl length. rewrite Hlen. split; [lia|assumption].
    + exists (S q'). simpl app. simpl length. rewrite Hlen'. lia.
Qed.

Lemma atob_EncodeToString (src : list Z) :
  Forall byte src -> atob (EncodeToString src) = Normal src.
Proof.
  intro Hsrc.
  destruct (encode_shape src Hsrc)
    as (body & k & sx & He & Hk & Hws & Hpad & Hsx & Hbytes
        & (q & r & Hlen & Hr) & (q' & Hlen')).
  unfold atob. rewrite He.
  rewrite strip_whitespace_plain.
  2:{ apply Forall_app. split; [assumption|].
      apply Forall_forall. intros x Hx. apply repeat_spec in Hx. now subst. }
  rewrite strip_padding_spec; try assumption.
  2:{ rewrite Hlen'. rewrite Nat2Z.inj_mul. simpl Z.of_nat.
      rewrite Z.mul_comm. apply Z_mod_mult. }
  replace (Z.of_nat (length body) mod 4 =? 1) with false.
  - rewrite Hsx, Hbytes. reflexivity.
  - symmetry. apply Z.eqb_neq. rewrite Hlen.
    rewrite Nat2Z.inj_add, Nat2Z.inj_mul. simpl (Z.of_nat 4).
    Z.div_mod_to_equations. lia.
Qed.

End Base64Facts.

(** ** Percent escapes and UTF-8 *)

Module URIFacts.
Import URI.

Example escape_line_feed : percent_escape 10 = lit "%0a".
Proof. reflexivity. Qed.

Example escape_255 : percent_escape 255 = lit "%ff".
Proof. reflexivity. Qed.

Example decode_euro : decodeURIComponent (lit "%e2%82%ac") = Normal [8364].
Proof. reflexivity. Qed.

Example decode_astral :
  decodeURIComponent (lit "a%F0%9F%98%80") = Normal [97; 55357; 56832].
Proof. reflexivity. Qed.

Example decode_overlong : decodeURIComponent (lit "%c0%80") = Throw URIError.
Proof. reflexivity. Qed.

Example decode_surrogate : decodeURIComponent (lit "%ed%a0%80") = Throw URIError.
Proof. reflexivity. Qed.

Example decode_truncated : decodeURIComponent (lit "%e2%82") = Throw URIError.
Proof. reflexivity. Qed.

Example decode_lone_continuation : decodeURIComponent (lit "%80") = Throw URIError.
Proof. reflexivity. Qed.

Lemma hex_value_digit (d : Z) : 0 <= d < 16 -> hex_value (hex_digit d) = Some d.
Proof.
  intro Hd. unfold hex_digit.
  destruct (Z.ltb_spec d 10); unfold hex_value;
  repeat match goal with
  | |- context [?a <=? ?b] => destruct (Z.leb_spec a b); cbn [andb]
  end; try (f_equal; lia); lia.
Qed.

Lemma percent_escape_byte (b : Z) :
  byte b -> percent_escape b = [37; hex_digit (b / 16); hex_digit (b mod 16)].
Proof.
  unfold byte. intro Hb. unfold percent_escape, toString16, slice_last2.
  cbn [hex_digits]. destruct (Z.ltb_spec b 16) as [Hlt|Hge].
  - rewrite Z.div_small, Z.mod_small by lia. reflexivity.
  - destruct (Z.ltb_spec (b / 16) 16) as [_|Hbig].
    + reflexivity.
    + exfalso. Z.div_mod_to_equations. lia.
Qed.

Lemma take_escape_digits (b : Z) (rest : jsstring) :
  byte b ->
  take_escape (37 :: hex_digit (b / 16) :: hex_digit (b mod 16) :: rest)
  = Some (b, rest).
Proof.
  unfold byte. intro Hb. unfold take_escape.
  rewrite !hex_value_digit by (Z.div_mod_to_equations; lia).
  do 2 f_equal. Z.div_mod_to_equations. lia.
Qed.

Lemma Decode_skip (p rest : jsstring) :
  Decode (length p) (p ++ rest) = Decode O rest.
Proof.
  induction p as [|x p IH]; [reflexivity|exact IH].
Qed.

(** The loop at an escape, in terms of the octet the escape stands for. *)
Lemma Decode_escape (B : Z) (rest : jsstring) :
  byte B ->
  Decode O (percent_escape B ++ rest) =
  if B <? 128 then mapC (cons B) (Decode O rest)
  else
    match sequence_length B with
    | None => Throw URIError
    | Some n =>
        match take_continuation (n - 1) rest with
        | None => Throw URIError
        | Some cont =>
            match code_point_of B cont with
            | None => Throw URIError
            | Some V =>
                mapC (app (utf16_units V))
                  (Decode (3 * n - 1)
                     (hex_digit (B / 16) :: hex_digit (B mod 16) :: rest))
            end
        end
    end.
Proof.
  intro HB. rewrite (percent_escape_byte B HB). cbn [app].
  cbn [Decode]. unfold decode_at. change (37 =? 37) with true. cbv iota.
  rewrite (take_escape_digits B rest HB).
  destruct (B <? 128).
  - reflexivity.
  - destruct (sequence_length B) as [n|]; [|reflexivity].
    destruct (take_continuation (n - 1) rest) as [cont|]; [|reflexivity].
    destruct (code_point_of B cont) as [V|]; reflexivity.
Qed.

Lemma take_continuation_escape (n : nat) (B : Z) (rest : jsstring) :
  byte B -> 128 <= B < 192 ->
  take_continuation (S n) (percent_escape B ++ rest)
  = option_map (cons B) (take_continuation n rest).
Proof.
  intros HB Hr. rewrite (percent_escape_byte B HB). cbn [app].
  cbn [take_continuation]. rewrite (take_escape_digits B rest HB).
  destruct (Z.leb_spec 128 B); [|lia].
  destruct (Z.ltb_spec B 192); [|lia]. reflexivity.
Qed.

Lemma encode_scalar_bytes (c : Z) :
  UTF8.scalar_value c -> Forall byte (UTF8.encode_scalar c).
Proof.
  unfold UTF8.scalar_value, UTF8.encode_scalar, byte. intros [Hc _].
  destruct (Z.ltb_spec c 128); [|destruct (Z.ltb_spec c 2048);
    [|destruct (Z.ltb_spec c 65536)]];
  repeat constructor; Z.div_mod_to_equations; lia.
Qed.

Ltac continuation_octet :=
  rewrite take_continuation_escape;
  [ | unfold byte; Z.div_mod_to_equations; lia
    | Z.div_mod_to_equations; lia ].

Ltac decide_ltb :=
  repeat match goal with
  | |- context [?a <? ?b] =>
      destruct (Z.ltb_spec a b);
      try (exfalso; Z.div_mod_to_equations; lia); []
  | |- context [?a <=? ?b] =>
      destruct (Z.leb_spec a b);
      try (exfalso; Z.div_mod_to_equations; lia); []
  end.

(** The loop undoes the escaped UTF-8 octets of one scalar value. *)
Lemma Decode_scalar (c : Z) (rest : jsstring) :
  UTF8.scalar_value c ->
  Decode O (map_join percent_escape (UTF8.encode_scalar c) ++ rest)
  = mapC (app (utf16_units c)) (Decode O rest).
Proof.
  intros [Hc Hs]. unfold UTF8.encode_scalar, map_join.
  destruct (Z.ltb_spec c 128) as [H1|H1];
    [|destruct (Z.ltb_spec c 2048) as [H2|H2];
      [|destruct (Z.ltb_spec c 65536) as [H3|H3]]];
  cbn [map concat]; rewrite ?app_nil_r, <- ?app_assoc;
  (rewrite Decode_escape; [|unfold byte; Z.div_mod_to_equations; lia]).
  - destruct (Z.ltb_spec c 128); [|lia].
    unfold utf16_units. destruct (Z.ltb_spec c 65536); [|lia]. reflexivity.
  - unfold sequence_length. decide_ltb.
    cbn [Nat.sub]. continuation_octet. cbn [take_continuation option_map].
    unfold code_point_of.
    replace ((192 + c / 64 - 192) * 64 + (128 + c mod 64 - 128)) with c
      by (Z.div_mod_to_equations; lia).
    destruct (Z.leb_spec 128 c); [|lia].
    rewrite (percent_escape_byte (128 + c mod 64))
      by (unfold byte; Z.div_mod_to_equations; lia).
    reflexivity.
  - unfold sequence_length. decide_ltb.
    cbn [Nat.sub]. do 2 continuation_octet.
    cbn [take_continuation option_map].
    unfold code_point_of.
    replace ((224 + c / 4096 - 224) * 4096 + (128 + (c / 64) mod 64 - 128) * 64
             + (128 + c mod 64 - 128)) with c
      by (Z.div_mod_to_equations; lia).
    destruct (Z.leb_spec 2048 c); [|lia].
    replace ((55296 <=? c) && (c <=? 57343)) with false
      by (symmetry; apply andb_false_iff;
          destruct (Z.leb_spec 55296 c); [right; apply Z.leb_gt; lia|now left]).
    cbn [andb negb].
    rewrite (percent_escape_byte (128 + (c / 64) mod 64))
      by (unfold byte; Z.div_mod_to_equations; lia).
    rewrite (percent_escape_byte (128 + c mod 64))
      by (unfold byte; Z.div_mod_to_equations; lia).
    reflexivity.
  - unfold sequence_length. decide_ltb.
    cbn [Nat.sub]. do 3 continuation_octet.
    cbn [take_continuation option_map].
    unfold code_point_of.
    replace ((240 + c / 262144 - 240) * 262144
             + (128 + (c / 4096) mod 64 - 128) * 4096
             + (128 + (c / 64) mod 64 - 128) * 64
             + (128 + c mod 64 - 128)) with c
      by (Z.div_mod_to_equations; lia).
    destruct (Z.leb_spec 65536 c); [|lia].
    destruct (Z.leb_spec c 1114111); [|lia].
    cbn [andb].
    rewrite (percent_escape_byte (128 + (c / 4096) mod 64))
      by (unfold byte; Z.div_mod_to_equations; lia).
    rewrite (percent_escape_byte (128 + (c / 64) mod 64))
      by (unfold byte; Z.div_mod_to_equations; lia).
    rewrite (percent_escape_byte (128 + c mod 64))
      by (unfold byte; Z.div_mod_to_equations; lia).
    reflexivity.
Qed.

(** The whole text. *)
Lemma decodeURIComponent_text (text : list Z) :
  Forall UTF8.scalar_value text ->
  decodeURIComponent (map_join percent_escape (UTF8.encode text))
  = Normal (UTF8.to_jsstring text).
Proof.
  unfold decodeURIComponent, UTF8.encode, UTF8.to_jsstring, map_join.
  induction 1 as [|c text Hc _ IH].
  - reflexivity.
  - cbn [map concat]. rewrite map_app, concat_app.
    fold (map_join percent_escape (UTF8.encode_scalar c)).
    rewrite Decode_scalar by assumption. rewrite IH. reflexivity.
Qed.

Lemma encode_bytes (text : list Z) :
  Forall UTF8.scalar_value text -> Forall byte (UTF8.encode text).
Proof.
  unfold UTF8.encode. induction 1 as [|c text Hc _ IH]; cbn [map concat].
  - constructor.
  - apply Forall_app. split; [now apply encode_scalar_bytes|assumption].
Qed.

(** Conversely, only text is decoded: when the loop succeeds on escaped
    octets, the octets are the UTF-8 encoding of the text it returns. *)

Lemma map_join_cons (b : Z) (rest : list Z) :
  map_join percent_escape (b :: rest)
  = percent_escape b ++ map_join percent_escape rest.
Proof. reflexivity. Qed.

Lemma map_join_app (a b : list Z) :
  map_join percent_escape (a ++ b)
  = map_join percent_escape a ++ map_join percent_escape b.
Proof. unfold map_join. now rewrite map_app, concat_app. Qed.

Lemma map_join_length (l : list Z) :
  Forall byte l -> length (map_join percent_escape l) = (3 * length l)%nat.
Proof.
  induction 1 as [|b l Hb _ IH]; [reflexivity|].
  rewrite map_join_cons, length_app, IH, (percent_escape_byte b Hb).
  cbn [length]. lia.
Qed.

Lemma take_continuation_inv (k : nat) (rest cont : list Z) :
  Forall byte rest ->
  take_continuation k (map_join percent_escape rest) = Some cont ->
  exists rest',
    rest = cont ++ rest' /\ length cont = k /\
    Forall (fun c => 128 <= c < 192) cont.
Proof.
  revert rest cont. induction k as [|k IH]; intros rest cont Hrest.
  - cbn. intro E. inversion E. exists rest. auto.
  - destruct Hrest as [|c rest Hc Hrest]; [discriminate|].
    rewrite map_join_cons, (percent_escape_byte c Hc). cbn [app take_continuation].
    rewrite (take_escape_digits c _ Hc).
    destruct (Z.leb_spec 128 c); [|discriminate].
    destruct (Z.ltb_spec c 192); [|discriminate]. cbn [andb].
    destruct (take_continuation k (map_join percent_escape rest)) as [cont'|] eqn:E;
      [|discriminate].
    cbn. intro E'. inversion E'; subst.
    destruct (IH rest cont' Hrest E) as (rest' & -> & Hlen & Hr).
    exists rest'. repeat split; cbn; auto.
Qed.

Lemma code_point_inv (B : Z) (n : nat) (cont : list Z) (V : Z) :
  byte B -> 128 <= B -> sequence_length B = Some n ->
  length cont = (n - 1)%nat -> Forall (fun c => 128 <= c < 192) cont ->
  code_point_of B cont = Some V ->
  UTF8.scalar_value V /\ UTF8.encode_scalar V = B :: cont.
Proof.
  unfold byte, sequence_length, UTF8.scalar_value, UTF8.encode_scalar.
  intros HB Hhigh Hn Hlen Hcont.
  destruct (Z.ltb_spec B 192); [discriminate|].
  destruct (Z.ltb_spec B 224); [|destruct (Z.ltb_spec B 240);
    [|destruct (Z.ltb_spec B 248); [|discriminate]]];
  inversion Hn; subst n; clear Hn;
  repeat (destruct cont as [|? cont]; try discriminate Hlen);
  repeat match goal with
  | H : Forall _ (_ :: _) |- _ => inversion_clear H
  end;
  unfold code_point_of;
  repeat match goal with
  | |- context [?a <=? ?b] => destruct (Z.leb_spec a b); cbn [andb negb]
  end; try discriminate;
  intro E; inversion E; clear E; subst V;
  (split; [lia|]);
  repeat match goal with
  | |- context [?a <? ?b] =>
      destruct (Z.ltb_spec a b); try (exfalso; lia); []
  end;
  repeat (f_equal; try (Z.div_mod_to_equations; lia)).
Qed.

Lemma Decode_only_text (m : nat) (b : list Z) (s : jsstring) :
  (length b <= m)%nat -> Forall byte b ->
  Decode O (map_join percent_escape b) = Normal s ->
  exists text,
    Forall UTF8.scalar_value text /\ b = UTF8.encode text /\
    s = UTF8.to_jsstring text.
Proof.
  revert b s. induction m as [|m IH]; intros b s Hlen Hb.
  - destruct b; [|cbn in Hlen; lia]. cbn. intro E. inversion E.
    exists []. repeat split; constructor.
  - destruct Hb as [|B rest HB Hrest].
    { cbn. intro E. inversion E. exists []. repeat split; constructor. }
    cbn [length] in Hlen. rewrite map_join_cons, (Decode_escape B _ HB).
    destruct (Z.ltb_spec B 128) as [Hlow|Hhigh].
    + destruct (Decode O (map_join percent_escape rest)) as [s'|] eqn:E;
        [|discriminate].
      cbn. intro E'. inversion E'; subst s.
      destruct (IH rest s' ltac:(lia) Hrest E) as (text & Ht & -> & ->).
      exists (B :: text). unfold byte in HB. repeat split.
      * constructor; [unfold UTF8.scalar_value; lia|assumption].
      * unfold UTF8.encode. cbn [map concat]. unfold UTF8.encode_scalar.
        destruct (Z.ltb_spec B 128); [reflexivity|lia].
      * unfold UTF8.to_jsstring. cbn [map concat]. unfold utf16_units.
        destruct (Z.ltb_spec B 65536); [reflexivity|lia].
    + destruct (sequence_length B) as [n|] eqn:En; [|discriminate].
      destruct (take_continuation (n - 1) (map_join percent_escape rest))
        as [cont|] eqn:Ec; [|discriminate].
      destruct (code_point_of B cont) as [V|] eqn:EV; [|discriminate].
      destruct (take_continuation_inv _ _ _ Hrest Ec) as (rest' & -> & Hl & Hr).
      apply Forall_app in Hrest. destruct Hrest as [Hcont Hrest'].
      destruct (code_point_inv B n cont V HB Hhigh En Hl Hr EV) as [HV HE].
      rewrite map_join_app.
      assert (Hn : (1 <= n)%nat).
      { unfold sequence_length in En.
        repeat match type of En with
        | (if ?c then _ else _) = _ => destruct c
        end; inversion En; lia. }
      replace (3 * n - 1)%nat
        with (length (hex_digit (B / 16) :: hex_digit (B mod 16)
                      :: map_join percent_escape cont))
        by (cbn [length]; rewrite map_join_length by assumption; lia).
      rewrite (app_comm_cons _ _ (hex_digit (B mod 16))),
              (app_comm_cons _ _ (hex_digit (B / 16))), Decode_skip.
      destruct (Decode O (map_join percent_escape rest')) as [s'|] eqn:E;
        [|discriminate].
      cbn. intro E'. inversion E'; subst s.
      rewrite length_app in Hlen.
      destruct (IH rest' s' ltac:(lia) Hrest' E) as (text & Ht & -> & ->).
      exists (V :: text). repeat split.
      * constructor; assumption.
      * unfold UTF8.encode. cbn [map concat]. rewrite HE. reflexivity.
Qed.

End URIFacts.

(** ** The client controller *)

Module WebTTYFacts.
Import WebTTY.

Example open_is_global : resolve "open" = GlobalFunction "open".
Proof. reflexivity. Qed.

Example connection_is_local : resolve "connection" = LexicalBinding 1 "connection".
Proof. reflexivity. Qed.

Example resize_body :
  JSON.stringify_size 100 40
  = lit "{" ++ JSON.quote (lit "columns") ++ lit ":100,"
    ++ JSON.quote (lit "rows") ++ lit ":40}".
Proof. reflexivity. Qed.

Example quote_escapes : JSON.quote [97; 34; 10; 1] = 34 :: lit "a\" ++ 34 :: lit "\n\u0001" ++ [34].
Proof. reflexivity. Qed.

Example quote_surrogates :
  JSON.quote [55357; 56832; 97; 55357; 98; 56832]
  = 34 :: 55357 :: 56832 :: lit "a\ud83db\ude00" ++ [34].
Proof. reflexivity. Qed.

Section Controller.
Context {B : JSON.Builtin}.
Local Abbreviation W := (World JSON.Opaque).

Lemma sent_on_send (c c' : nat) (d : jsstring) (w : W) :
  sent_on c' (send c d w)
  = sent_on c' w ++ (if (c =? c')%nat then [d] else []).
Proof.
  unfold sent_on, send. cbn [sent]. rewrite filter_app, map_app.
  cbn [filter fst]. destruct (c =? c')%nat; reflexivity.
Qed.

Lemma hd_error_app_nonempty {A} (l m : list A) :
  l <> [] -> hd_error (l ++ m) = hd_error l.
Proof. destruct l; [congruence|reflexivity]. Qed.

Lemma app_nonempty {A} (l m : list A) : l <> [] -> l ++ m <> [].
Proof. destruct l; [congruence|discriminate]. Qed.

(** Sending on a connection that has sent before keeps the invariant. *)
Lemma handshake_first_send (cfg : Config) (c : nat) (d : jsstring) (w : W) :
  handshake_first cfg w -> sent_on c w <> [] ->
  handshake_first cfg (send c d w).
Proof.
  intros (Hi & Hr & Hh) Hc. repeat split.
  - intros c' Hin. rewrite sent_on_send. apply app_nonempty. now apply Hi.
  - intros c' Hin. rewrite sent_on_send. apply app_nonempty. now apply Hr.
  - intro c'. rewrite sent_on_send.
    destruct (Nat.eqb_spec c c') as [<-|_].
    + rewrite hd_error_app_nonempty by assumption. apply Hh.
    + rewrite app_nil_r. apply Hh.
Qed.

(** Changes that leave the sent bodies and the listeners alone. *)
Lemma handshake_first_frame (cfg : Config) (w w' : W) :
  sent w' = sent w -> input_listeners w' = input_listeners w ->
  resize_listeners w' = resize_listeners w ->
  handshake_first cfg w -> handshake_first cfg w'.
Proof.
  unfold handshake_first, sent_on. intros -> -> ->. trivial.
Qed.

Lemma handshake_first_onOpen (cfg : Config) (c : nat) (w : W) :
  handshake_first cfg w -> handshake_first cfg (onOpen cfg c w).
Proof.
  intros (Hi & Hr & Hh). unfold onOpen.
  set (hs := JSON.stringify_handshake (args cfg) (authToken cfg)).
  assert (Hsent : forall c', sent_on c' (term_onInput c (term_onResize c (send c hs w)))
                             = sent_on c' (send c hs w)) by reflexivity.
  assert (Hc : sent_on c (send c hs w) <> []).
  { rewrite sent_on_send, Nat.eqb_refl. now destruct (sent_on c w). }
  repeat split.
  - intros c' Hin. rewrite Hsent. cbn [term_onInput input_listeners term_onResize send] in Hin.
    apply in_app_or in Hin. destruct Hin as [Hin|[<-|[]]]; [|exact Hc].
    rewrite sent_on_send. apply app_nonempty. now apply Hi.
  - intros c' Hin. rewrite Hsent. cbn [term_onInput resize_listeners term_onResize send] in Hin.
    apply in_app_or in Hin. destruct Hin as [Hin|[<-|[]]]; [|exact Hc].
    rewrite sent_on_send. apply app_nonempty. now apply Hr.
  - intro c'. rewrite Hsent, sent_on_send.
    destruct (Nat.eqb_spec c c') as [<-|_].
    + destruct (sent_on c w) as [|x l] eqn:E.
      * right. reflexivity.
      * specialize (Hh c). rewrite E in Hh. exact Hh.
    + rewrite app_nil_r. apply Hh.
Qed.

Lemma handshake_first_input (cfg : Config) (input : jsstring) (l : list nat) (w : W) :
  handshake_first cfg w -> (forall c, In c l -> sent_on c w <> []) ->
  handshake_first cfg (fold_left (fun w c => input_callback c input w) l w).
Proof.
  revert w. induction l as [|c l IH]; intros w Hw Hl; [exact Hw|].
  cbn [fold_left]. apply IH.
  - apply handshake_first_send; [assumption|]. apply Hl. now left.
  - intros c' Hin. unfold input_callback. rewrite sent_on_send.
    apply app_nonempty. apply Hl. now right.
Qed.

Lemma handshake_first_resize (cfg : Config) (columns rows : Z) (l : list nat) (w : W) :
  handshake_first cfg w -> (forall c, In c l -> sent_on c w <> []) ->
  handshake_first cfg
    (fold_left (fun w c => xterm_resize_listener c columns rows w) l w).
Proof.
  revert w. induction l as [|c l IH]; intros w Hw Hl; [exact Hw|].
  cbn [fold_left]. apply IH.
  - unfold xterm_resize_listener, resize_callback.
    apply handshake_first_send.
    + eapply handshake_first_frame; [| | |exact Hw]; reflexivity.
    + apply (Hl c). now left.
  - intros c' Hin. unfold xterm_resize_listener, resize_callback.
    rewrite sent_on_send. apply app_nonempty. apply (Hl c'). now right.
Qed.

Lemma onReceive_frame (data : jsstring) (w w' : W) :
  onReceive data w = Normal w' ->
  sent w' = sent w /\ input_listeners w' = input_listeners w /\
  resize_listeners w' = resize_listeners w /\ created w' = created w /\
  timeouts w' = timeouts w.
Proof.
  unfold onReceive.
  repeat match goal with
  | |- context [first_is ?d ?k] => destruct (first_is d k)
  end;
  try (intro H; inversion H; subst; repeat split; reflexivity).
  - destruct (decode_output (tl data)); cbn [bindC]; intro H; inversion H.
    repeat split; reflexivity.
  - destruct (JSON.parse (tl data)); cbn [bindC]; intro H; inversion H.
    repeat split; reflexivity.
  - destruct (JSON.parse (tl data)); cbn [bindC]; intro H; inversion H.
    repeat split; reflexivity.
Qed.

Lemma handshake_first_step (cfg : Config) (w : W) (e : Event) :
  handshake_first cfg w -> handshake_first cfg (fst (step cfg w e)).
Proof.
  intro Hw. destruct e as [|c|c data|c|input|columns rows|k]; cbn [step].
  - eapply handshake_first_frame; [| | |exact Hw]; reflexivity.
  - destruct (c <? created w)%nat; cbn [fst]; [|exact Hw].
    now apply handshake_first_onOpen.
  - destruct (c <? created w)%nat; cbn [fst]; [|exact Hw].
    destruct (onReceive data w) as [w'|x] eqn:E; cbn [fst]; [|exact Hw].
    apply onReceive_frame in E. destruct E as (E1 & E2 & E3 & _).
    eapply handshake_first_frame; eassumption.
  - destruct (c <? created w)%nat; cbn [fst]; [|exact Hw].
    unfold onClose. destruct (reconnect_positive _);
      (eapply handshake_first_frame; [| | |exact Hw]; reflexivity).
  - cbn [fst]. apply handshake_first_input; [assumption|]. apply Hw.
  - cbn [fst]. apply handshake_first_resize; [assumption|]. apply Hw.
  - destruct (nth_error (timeouts w) k) as [[f ms]|]; cbn [fst]; [|exact Hw].
    unfold run_callee.
    repeat match goal with
    | |- context [match ?x with _ => _ end] => destruct x; try exact Hw
    end.
Qed.

Lemma handshake_first_run (cfg : Config) (events : list Event) (w : W) :
  handshake_first cfg w -> handshake_first cfg (run cfg w events).
Proof.
  revert w. induction events as [|e events IH]; intros w Hw; [exact Hw|].
  cbn [run fold_left]. apply IH. now apply handshake_first_step.
Qed.

Lemma handshake_first_initial (cfg : Config) : handshake_first cfg initial.
Proof.
  repeat split; try (intros c []). intro c. now left.
Qed.


Lemma onReceive_dispatch (data : jsstring) (w : W) :
  onReceive data w =
  match hd_error data with
  | Some 49 => text <- decode_output (tl data) ;; Normal (term (Write text) w)
  | Some 50 => Normal w
  | Some 51 => Normal (term (SetTitle (tl data)) w)
  | Some 52 =>
      preferences <- JSON.parse (tl data) ;;
      Normal (term (SetPrefs preferences) w)
  | Some 53 =>
      autoReconnect <- JSON.parse (tl data) ;;
      Normal (set_reconnect autoReconnect w)
  | _ => Normal w
  end.
Proof.
  unfold onReceive, first_is.
  destruct data as [|c data]; [reflexivity|]. cbn [hd_error tl].
  change Output with [49]. change Pong with [50].
  change SetWindowTitle with [51]. change SetPreferences with [52].
  change SetReconnect with [53].
  destruct (Z.eqb_spec c 49) as [->|H1]; [reflexivity|].
  destruct (Z.eqb_spec c 50) as [->|H2]; [reflexivity|].
  destruct (Z.eqb_spec c 51) as [->|H3]; [reflexivity|].
  destruct (Z.eqb_spec c 52) as [->|H4]; [reflexivity|].
  destruct (Z.eqb_spec c 53) as [->|H5]; [reflexivity|].
  destruct c as [|p|p]; try reflexivity.
  do 6 (destruct p as [p|p|]; try reflexivity); congruence.
Qed.

Lemma input_fold_sent (input : jsstring) (l : list nat) (w : W) :
  let w' := fold_left (fun w c => input_callback c input w) l w in
  sent w' = sent w ++ map (fun c => (c, Input ++ input)) l /\
  input_listeners w' = input_listeners w.
Proof.
  revert w. induction l as [|c l IH]; intro w; cbn [fold_left map].
  - now rewrite app_nil_r.
  - destruct (IH (input_callback c input w)) as [E1 E2].
    cbn zeta in *. rewrite E1, E2. unfold input_callback, send. cbn [sent input_listeners].
    now rewrite <- app_assoc.
Qed.

End Controller.

(** The decoding of an Output payload succeeds on text only. *)
Lemma decode_output_only_text (b : list Z) (s : jsstring) :
  Forall byte b ->
  decode_output (Base64.EncodeToString b) = Normal s ->
  exists text,
    Forall UTF8.scalar_value text /\ b = UTF8.encode text /\
    s = UTF8.to_jsstring text.
Proof.
  intros Hb. unfold decode_output.
  rewrite Base64Facts.atob_EncodeToString by assumption. cbn [bindC].
  apply (URIFacts.Decode_only_text (length b)); auto.
Qed.


End WebTTYFacts.

(** ** What the controller sends *)

Module TrafficFacts.
Import WebTTY WebTTYFacts Traffic.

Lemma list_ind4 (A : Type) (P : list A -> Prop) :
  P [] -> (forall a, P [a]) -> (forall a b, P [a; b]) ->
  (forall a b c, P [a; b; c]) ->
  (forall a b c d l, P l -> P (a :: b :: c :: d :: l)) ->
  forall l, P l.
Proof.
  intros H0 H1 H2 H3 H4.
  assert (H : forall l, P l /\ (forall a, P (a :: l))
                        /\ (forall a b, P (a :: b :: l))
                        /\ (forall a b c, P (a :: b :: c :: l))).
  { induction l as [|x l (IH0 & IH1 & IH2 & IH3)]; repeat split; auto. }
  intro l. apply H.
Qed.

Lemma dec_char_range (c x : Z) : Base64.dec_char c = Some x -> 0 <= x < 64.
Proof.
  unfold Base64.dec_char.
  repeat match goal with
  | |- context [?a <=? ?b] => destruct (Z.leb_spec a b); cbn [andb]
  | |- context [?a =? ?b] => destruct (Z.eqb_spec a b); cbn [andb]
  end; intro E; inversion E; lia.
Qed.

Lemma sextets_of_range (s : jsstring) (l : list Z) :
  Base64.sextets_of s = Some l -> Forall (fun x => 0 <= x < 64) l.
Proof.
  revert l. induction s as [|c s IH]; intro l; cbn [Base64.sextets_of].
  - intro E. inversion E. constructor.
  - destruct (Base64.dec_char c) as [x|] eqn:Ec; [|discriminate].
    destruct (Base64.sextets_of s) as [xs|]; [|discriminate].
    intro E. inversion E. constructor; [now apply (dec_char_range c)|now apply IH].
Qed.

Lemma bytes_of_sextets_bytes (l : list Z) :
  Forall (fun x => 0 <= x < 64) l -> Forall byte (Base64.bytes_of_sextets l).
Proof.
  unfold byte.
  induction l as [|a|a b|a b c|a b c d l IH] using list_ind4; intro H;
    cbn [Base64.bytes_of_sextets];
    repeat match goal with
    | H : Forall _ (_ :: _) |- _ => inversion_clear H
    end;
    repeat constructor; try (Z.div_mod_to_equations; lia).
  now apply IH.
Qed.

(** [atob] returns a binary string. *)
Lemma atob_bytes (data bin : jsstring) :
  Base64.atob data = Normal bin -> Forall byte bin.
Proof.
  unfold Base64.atob.
  destruct (_ =? 1); [discriminate|].
  destruct (Base64.sextets_of _) as [l|] eqn:E; [|discriminate].
  intro H. inversion H. apply bytes_of_sextets_bytes.
  exact (sextets_of_range _ l E).
Qed.

Section Controller.
Context {B : JSON.Builtin}.
Local Abbreviation W := (World JSON.Opaque).

Lemma input_fold_frame (input : jsstring) (l : list nat) (w : W) :
  let w' := fold_left (fun w c => input_callback c input w) l w in
  resize_listeners w' = resize_listeners w /\ reconnect w' = reconnect w /\
  timeouts w' = timeouts w /\ created w' = created w.
Proof.
  revert w. induction l as [|c l IH]; intro w; cbn [fold_left]; [auto|].
  apply (IH (input_callback c input w)).
Qed.

Lemma resize_fold_frame (columns rows : Z) (l : list nat) (w : W) :
  let w' := fold_left (fun w c => xterm_resize_listener c columns rows w) l w in
  sent w' = sent w ++ map (fun c => (c, ResizeTerminal
                                        ++ JSON.stringify_size columns rows)) l /\
  input_listeners w' = input_listeners w /\
  resize_listeners w' = resize_listeners w /\ reconnect w' = reconnect w /\
  timeouts w' = timeouts w /\ created w' = created w.
Proof.
  revert w. induction l as [|c l IH]; intro w; cbn [fold_left map].
  - rewrite app_nil_r. repeat split.
  - destruct (IH (xterm_resize_listener c columns rows w))
      as (E1 & E2 & E3 & E4 & E5 & E6).
    cbn zeta in *. rewrite E1, E2, E3, E4, E5, E6.
    unfold xterm_resize_listener, resize_callback, send, term.
    cbn [sent input_listeners resize_listeners reconnect timeouts created].
    rewrite <- app_assoc. repeat split.
Qed.

(** Every event only adds to what was sent and to the listeners. *)
Lemma step_appends (cfg : Config) (w : W) (e : Event) :
  exists bodies ls rs,
    sent (fst (step cfg w e)) = sent w ++ bodies /\
    input_listeners (fst (step cfg w e)) = input_listeners w ++ ls /\
    resize_listeners (fst (step cfg w e)) = resize_listeners w ++ rs /\
    Forall (fun m => controller_body cfg (snd m)) bodies.
Proof.
  assert (Hsame : forall w' : W,
             sent w' = sent w -> input_listeners w' = input_listeners w ->
             resize_listeners w' = resize_listeners w ->
             exists bodies ls rs,
               sent w' = sent w ++ bodies /\
               input_listeners w' = input_listeners w ++ ls /\
               resize_listeners w' = resize_listeners w ++ rs /\
               Forall (fun m => controller_body cfg (snd m)) bodies).
  { intros w' E1 E2 E3. exists [], [], []. rewrite !app_nil_r. auto. }
  destruct e as [|c|c data|c|input|columns rows|k]; cbn [step].
  - apply Hsame; reflexivity.
  - destruct (c <? created w)%nat; cbn [fst]; [|apply Hsame; reflexivity].
    exists [(c, JSON.stringify_handshake (args cfg) (authToken cfg))], [c], [c].
    repeat split. constructor; [|constructor]. now left.
  - destruct (c <? created w)%nat; cbn [fst]; [|apply Hsame; reflexivity].
    destruct (onReceive data w) as [w'|x] eqn:E; cbn [fst];
      [|apply Hsame; reflexivity].
    apply onReceive_frame in E. destruct E as (E1 & E2 & E3 & _).
    now apply Hsame.
  - destruct (c <? created w)%nat; cbn [fst]; [|apply Hsame; reflexivity].
    unfold onClose. destruct (reconnect_positive _); apply Hsame; reflexivity.
  - cbn [fst].
    destruct (input_fold_sent input (input_listeners w) w) as [E1 E2].
    destruct (input_fold_frame input (input_listeners w) w) as (E3 & _).
    cbn zeta in *.
    exists (map (fun c => (c, Input ++ input)) (input_listeners w)), [], [].
    rewrite !app_nil_r. repeat split; auto.
    apply Forall_forall. intros m Hm. apply in_map_iff in Hm.
    destruct Hm as (c & <- & _). right. left. now exists input.
  - cbn [fst].
    destruct (resize_fold_frame columns rows (resize_listeners w) w)
      as (E1 & E2 & E3 & _).
    cbn zeta in *.
    exists (map (fun c => (c, ResizeTerminal
                              ++ JSON.stringify_size columns rows))
              (resize_listeners w)), [], [].
    rewrite !app_nil_r. repeat split; auto.
    apply Forall_forall. intros m Hm. apply in_map_iff in Hm.
    destruct Hm as (c & <- & _). right. right. now exists columns, rows.
  - destruct (nth_error (timeouts w) k) as [[f ms]|]; cbn [fst];
      [|apply Hsame; reflexivity].
    unfold run_callee.
    repeat match goal with
    | |- context [match ?x with _ => _ end] =>
        destruct x; try (apply Hsame; reflexivity)
    end.
Qed.

Lemma run_appends (cfg : Config) (events : list Event) (w : W) :
  exists bodies ls,
    sent (run cfg w events) = sent w ++ bodies /\
    input_listeners (run cfg w events) = input_listeners w ++ ls /\
    Forall (fun m => controller_body cfg (snd m)) bodies.
Proof.
  revert w. induction events as [|e events IH]; intro w.
  - exists [], []. rewrite !app_nil_r. auto.
  - change (run cfg w (e :: events)) with (run cfg (fst (step cfg w e)) events).
    destruct (step_appends cfg w e) as (b1 & l1 & _ & E1 & E2 & _ & F1).
    destruct (IH (fst (step cfg w e))) as (b2 & l2 & E3 & E4 & F2).
    exists (b1 ++ b2), (l1 ++ l2). rewrite E3, E4, E1, E2, !app_assoc.
    repeat split. apply Forall_app. auto.
Qed.

Lemma no_delay_step (cfg : Config) (w : W) (e : Event) :
  stores_no_delay e ->
  reconnect_positive (reconnect w) = false -> timeouts w = [] ->
  reconnect_positive (reconnect (fst (step cfg w e))) = false /\
  timeouts (fst (step cfg w e)) = [].
Proof.
  intros He Hr Ht.
  destruct e as [|c|c data|c|input|columns rows|k]; cbn [step].
  - auto.
  - destruct (c <? created w)%nat; cbn [fst]; auto.
  - destruct (c <? created w)%nat; cbn [fst]; [|auto].
    cbn [stores_no_delay] in He. rewrite onReceive_dispatch.
    destruct (hd_error data) as [k|]; [|auto].
    destruct (Z.eq_dec k 53) as [->|Hk].
    + specialize (He eq_refl).
      destruct (JSON.parse (tl data)) as [v|x]; cbn [bindC fst]; auto.
    + clear He.
      destruct k as [|p|p]; cbn [fst]; auto.
      do 6 (destruct p as [p|p|]; cbn [fst]; auto);
        try (destruct (decode_output (tl data)); cbn [bindC fst]; now auto);
        try (destruct (JSON.parse (tl data)); cbn [bindC fst]; now auto);
        now elim Hk.
  - destruct (c <? created w)%nat; cbn [fst]; [|auto].
    unfold onClose. cbn [term reconnect]. rewrite Hr. auto.
  - cbn [fst].
    destruct (input_fold_frame input (input_listeners w) w) as (_ & E1 & E2 & _).
    cbn zeta in *. rewrite E1, E2. auto.
  - cbn [fst].
    destruct (resize_fold_frame columns rows (resize_listeners w) w)
      as (_ & _ & _ & E1 & E2 & _).
    cbn zeta in *. rewrite E1, E2. auto.
  - rewrite Ht. destruct k; cbn [nth_error fst]; auto.
Qed.

End Controller.

End TrafficFacts.


(** ** Properties of the client *)

Module Client.
Import WebTTY WebTTYFacts Traffic TrafficFacts.

(** C2, as stated, fails: the single byte 0xFF is encoded by the server as
    [/w==]; the client's decoding of an Output payload throws [URIError] on
    it, and the receive handler writes nothing to the terminal. *)
Lemma output_decode_rejects_byte_255 :
  Forall byte [255] /\
  Base64.EncodeToString [255] = lit "/w==" /\
  Base64.atob (Base64.EncodeToString [255]) = Normal [255] /\
  decode_output (Base64.EncodeToString [255]) = Throw URIError /\
  decode_output (Base64.EncodeToString [255]) <> Normal [255] /\
  step (B := JSON.integers_only) {| args := []; authToken := [] |}
    (open initial) (ConnReceive 0 (Output ++ Base64.EncodeToString [255]))
  = (open initial, Some URIError).
Proof.
  repeat split; try reflexivity.
  - repeat constructor; unfold byte; lia.
  - discriminate.
Qed.

(** C2, amended: for every text (sequence of Unicode scalar values), the
    Output frame carrying the base64 encoding of its UTF-8 bytes makes the
    receive handler write exactly that text to the terminal; when all the
    bytes are below 0x80 (empty sequence and control bytes included) the
    string written has the original bytes as its code units. *)
Theorem output_round_trip_text {B : JSON.Builtin} (text : list Z)
  (w : World JSON.Opaque) :
  Forall UTF8.scalar_value text ->
  decode_output (Base64.EncodeToString (UTF8.encode text))
  = Normal (UTF8.to_jsstring text) /\
  onReceive (Output ++ Base64.EncodeToString (UTF8.encode text)) w
  = Normal (term (Write (UTF8.to_jsstring text)) w) /\
  (Forall (fun c => c < 128) text ->
   UTF8.encode text = text /\ UTF8.to_jsstring text = text).
Proof.
  intro Htext.
  assert (Hd : decode_output (Base64.EncodeToString (UTF8.encode text))
               = Normal (UTF8.to_jsstring text)).
  { unfold decode_output.
    rewrite Base64Facts.atob_EncodeToString by now apply URIFacts.encode_bytes.
    cbn [bindC]. now apply URIFacts.decodeURIComponent_text. }
  split; [exact Hd|]. split.
  - rewrite onReceive_dispatch. change Output with [49]. cbn [app hd_error tl].
    rewrite Hd. reflexivity.
  - intro Hascii. clear Hd. unfold UTF8.encode, UTF8.to_jsstring.
    induction Hascii as [|c l Hc _ IH]; [split; reflexivity|].
    inversion_clear Htext as [|? ? [Hc0 _] Hl].
    destruct (IH Hl) as [E1 E2]. cbn [map concat]. rewrite E1, E2.
    unfold UTF8.encode_scalar, URI.utf16_units.
    destruct (Z.ltb_spec c 128); [|lia].
    destruct (Z.ltb_spec c 65536); [|lia]. split; reflexivity.
Qed.

Lemma output_round_trip_text_witness :
  Forall UTF8.scalar_value [104; 233; 8364; 128512; 10] /\
  onReceive (B := JSON.integers_only)
    (Output ++ Base64.EncodeToString (UTF8.encode [104; 233; 8364; 128512; 10]))
    initial
  = Normal (term (Write (UTF8.to_jsstring [104; 233; 8364; 128512; 10])) initial).
Proof.
  assert (H : Forall UTF8.scalar_value [104; 233; 8364; 128512; 10]).
  { repeat constructor; unfold UTF8.scalar_value; lia. }
  split; [exact H|].
  exact (proj1 (proj2 (output_round_trip_text (B := JSON.integers_only)
                         [104; 233; 8364; 128512; 10] initial H))).
Defined.





(** C3: what the code does at the failing input.  After [SetReconnect] with
    a positive integer [n] and a close, one timeout of [n * 1000]
    milliseconds is set, but its callback is the global function [open] of
    the page, not the method [open] of the controller: when it expires no
    connection is made, where a call of the method would have made one
    more. *)
Theorem reconnect_timeout_calls_global_open {B : JSON.Builtin} (cfg : Config)
  (w : World JSON.Opaque) (c : nat) (payload : jsstring) (n : Z) :
  (c < created w)%nat ->
  JSON.parse payload = Normal (JSON.Num n) -> 0 < n ->
  let w' := run cfg w [ConnReceive c (SetReconnect ++ payload); ConnClose c] in
  timeouts w' = timeouts w ++ [(GlobalFunction "open", n * 1000)] /\
  GlobalFunction "open" <> Method "open" /\
  created w' = created w /\
  created (run_callee (GlobalFunction "open") w') = created w /\
  created (run_callee (Method "open") w') = S (created w).
Proof.
  intros Hc Hparse Hn.
  assert (Hrecv : onReceive (SetReconnect ++ payload) w
                  = Normal (set_reconnect (JSON.Num n) w)).
  { rewrite onReceive_dispatch. change SetReconnect with [53].
    cbn [app hd_error tl]. rewrite Hparse. reflexivity. }
  assert (Hpos : (0 <? n) = true) by (apply Z.ltb_lt; exact Hn).
  apply Nat.ltb_lt in Hc.
  unfold run. cbn [fold_left step]. rewrite Hc, Hrecv. cbn [fst].
  change (created (set_reconnect (JSON.Num n) w)) with (created w).
  rewrite Hc. cbn [fst]. unfold onClose.
  change (reconnect (term (ShowMessage (lit "disconnected") 0)
                       (set_reconnect (JSON.Num n) w)))
    with (Some (JSON.Num n : JSON.Value JSON.Opaque)).
  cbn [reconnect_positive reconnect_millis]. rewrite Hpos.
  repeat split; try reflexivity. discriminate.
Qed.

Lemma reconnect_timeout_calls_global_open_witness :
  (0 < created (open (B := JSON.integers_only) initial))%nat /\
  JSON.parse (Builtin := JSON.integers_only) (lit "5") = Normal (JSON.Num 5) /\
  0 < 5 /\
  timeouts
    (run (B := JSON.integers_only) {| args := []; authToken := [] |}
       (open initial) [ConnReceive 0 (lit "55"); ConnClose 0])
  = [(GlobalFunction "open", 5000)].
Proof.
  assert (H : (0 < created (open (B := JSON.integers_only) initial))%nat)
    by (cbn; lia).
  split; [exact H|]. split; [reflexivity|]. split; [lia|].
  exact (proj1 (reconnect_timeout_calls_global_open (B := JSON.integers_only)
                  {| args := []; authToken := [] |} (open initial) 0 (lit "5") 5
                  H eq_refl eq_refl)).
Defined.

(** C8, as stated, fails: for the input [ls] followed by a line feed the
    frame sent is the character '1' followed by the input itself, not
    followed by its base64 transform [bHMK]. *)
Lemma input_frame_is_not_transformed :
  sent_on 0
    (run (B := JSON.integers_only) {| args := []; authToken := [] |} initial
       [CallOpen; ConnOpen 0; TermInput [108; 115; 10]])
  = [JSON.stringify_handshake [] []; 49 :: [108; 115; 10]] /\
  payload_of (49 :: [108; 115; 10]) = [108; 115; 10] /\
  Base64.EncodeToString (UTF8.encode [108; 115; 10]) = lit "bHMK" /\
  payload_of (49 :: [108; 115; 10])
  <> Base64.EncodeToString (UTF8.encode [108; 115; 10]).
Proof.
  repeat split; try reflexivity. discriminate.
Qed.

(** C8, amended: for every terminal-input event, each listener sends on its
    connection the character '1' followed by the input string itself; the
    payload of the frame is the input, untransformed. *)
Theorem input_frame_is_raw {B : JSON.Builtin} (cfg : Config)
  (w : World JSON.Opaque) (input : jsstring) :
  sent (fst (step cfg w (TermInput input)))
  = sent w ++ map (fun c => (c, lit "1" ++ input)) (input_listeners w) /\
  snd (step cfg w (TermInput input)) = None /\
  (forall c, sent (input_callback c input w) = sent w ++ [(c, lit "1" ++ input)]) /\
  payload_of (lit "1" ++ input) = input.
Proof.
  cbn [step fst snd]. split; [apply input_fold_sent|].
  repeat split; reflexivity.
Qed.

End Client.

(** ** Properties of the page script *)

Module Page.
Import Main.


End Page.

(** ** Properties of the server *)

Module ServerFacts.
Import Server.
Local Open Scope string_scope.

Example static_file_behind_auth :
  fst (setupHandlers no_random (fst (New tt basic_auth_options)))
    member_js_request
  = {| layers := [Logger; Headers; BasicAuth];
       outcome := HandedTo StaticFile "js/gotty.js" |}.
Proof. reflexivity. Qed.

Example random_path :
  URLPath (fst (get_URL (fun _ => "k3x9")
                  {| options := {| Address := "::1"; Port := "8080";
                                   PermitWrite := false;
                                   EnableBasicAuth := false; Credential := "";
                                   EnableRandomUrl := true;
                                   RandomUrlLength := 4; IndexFile := "";
                                   EnableTLS := true; TLSCrtFile := "";
                                   TLSKeyFile := "";
                                   EnableTLSClientAuth := false;
                                   TLSCACrtFile := ""; Once := false;
                                   Timeout := 0 |};
                     upgrader := upgrader (fst (New tt basic_auth_options));
                     url := None; connections := 0; once := 0 |}))
  = "/k3x9/".
Proof. reflexivity. Qed.

Example clean_double_slash : cleanPath "//ws" = "/ws".
Proof. reflexivity. Qed.

Example clean_dots : cleanPath "/a/./b/../../ws/" = "/ws/".
Proof. reflexivity. Qed.

Example clean_above_root : cleanPath "/../js" = "/js".
Proof. reflexivity. Qed.

Example clean_empty : cleanPath "" = "/".
Proof. reflexivity. Qed.

Example unclean_is_redirected :
  fst (setupHandlers no_random (fst (New tt basic_auth_options)))
    anonymous_unclean_request
  = {| layers := [Logger]; outcome := Redirect "/ws" |}.
Proof. reflexivity. Qed.

Example connect_is_not_made_canonical :
  fst (setupHandlers no_random (fst (New tt basic_auth_options)))
    {| Method := "CONNECT"; RequestURI := "//ws"; Path := "//ws";
       BasicCredential := None; Origin := None; Host := "localhost:8080" |}
  = {| layers := [Logger; Headers]; outcome := Unauthorized |}.
Proof. reflexivity. Qed.

Example asterisk_is_a_bad_request :
  fst (setupHandlers no_random (fst (New tt basic_auth_options)))
    {| Method := "OPTIONS"; RequestURI := "*"; Path := "*";
       BasicCredential := None; Origin := None; Host := "localhost:8080" |}
  = {| layers := [Logger]; outcome := BadRequest |}.
Proof. reflexivity. Qed.

Example subtree_root_is_redirected :
  fst (setupHandlers no_random (fst (New tt basic_auth_options)))
    member_js_root_request
  = {| layers := [Logger; Headers; BasicAuth]; outcome := Redirect "/js/" |}.
Proof. reflexivity. Qed.

Lemma ends_with_slash_ws (p : string) : ends_with_slash (p ++ "ws") = false.
Proof.
  induction p as [|a p IH]; [reflexivity|].
  cbn [append ends_with_slash]. rewrite IH.
  destruct (p ++ "ws") eqn:E; [|reflexivity].
  destruct p; discriminate.
Qed.

Lemma length_ws (p : string) : (1 <? String.length (p ++ "ws"))%nat = true.
Proof.
  apply Nat.ltb_lt. induction p as [|a p IH]; cbn [append String.length]; lia.
Qed.

Lemma prefix_app (p s : string) : String.prefix p (p ++ s) = true.
Proof.
  induction p as [|a p IH]; cbn [append String.prefix].
  - now destruct s.
  - destruct (ascii_dec a a); [exact IH|congruence].
Qed.

Lemma prefix_app_inv (p s t : string) :
  String.prefix (p ++ s) t = true -> String.prefix p t = true.
Proof.
  revert t. induction p as [|a p IH]; intro t; cbn [append].
  - intros _. now destruct t.
  - destruct t as [|b t]; cbn [String.prefix]; [discriminate|].
    destruct (ascii_dec a b); [apply IH|discriminate].
Qed.

Lemma prefix_app_same (p a b : string) :
  String.prefix (p ++ a) (p ++ b) = String.prefix a b.
Proof.
  induction p as [|c p IH]; cbn [append]; [reflexivity|].
  cbn [String.prefix]. destruct (ascii_dec c c); [exact IH|congruence].
Qed.

Lemma eqb_app_same (p a b : string) :
  String.eqb (p ++ a) (p ++ b) = String.eqb a b.
Proof.
  induction p as [|c p IH]; cbn [append]; [reflexivity|].
  cbn [String.eqb]. now rewrite Ascii.eqb_refl.
Qed.

Lemma length_app (p a : string) :
  String.length (p ++ a) = (String.length p + String.length a)%nat.
Proof. induction p as [|c p IH]; cbn [append String.length]; lia. Qed.

Lemma app_assoc_string (a b c : string) : (a ++ b) ++ c = a ++ (b ++ c).
Proof. induction a as [|x a IH]; cbn [append]; [reflexivity|now rewrite IH]. Qed.

Lemma app_empty_r (a : string) : a ++ "" = a.
Proof. induction a as [|x a IH]; cbn [append]; [reflexivity|now rewrite IH]. Qed.

Lemma TrimPrefix_app (p s : string) : TrimPrefix (p ++ s) p = Some s.
Proof.
  induction p as [|c p IH]; cbn [append TrimPrefix]; [reflexivity|].
  now rewrite Ascii.eqb_refl.
Qed.

Lemma ends_with_slash_app (p : string) (c : ascii) (s : string) :
  ends_with_slash (p ++ String c s) = ends_with_slash (String c s).
Proof.
  induction p as [|a p IH]; [reflexivity|].
  cbn [append]. change (ends_with_slash (String a (p ++ String c s)))
    with (match p ++ String c s with
          | EmptyString => Ascii.eqb a "/"
          | String _ _ => ends_with_slash (p ++ String c s)
          end).
  destruct (p ++ String c s) eqn:E; [now destruct p|]. exact IH.
Qed.

Lemma eqb_prefix (k path : string) :
  String.eqb k path = true -> String.prefix k path = true.
Proof.
  intro E. apply String.eqb_eq in E. subst path.
  rewrite <- (app_empty_r k) at 2. apply prefix_app.
Qed.

(** A pattern that does not end in a slash is not a path with a slash
    added. *)
Lemma eqb_add_slash (k y : string) :
  ends_with_slash k = false -> String.eqb k (y ++ "/") = false.
Proof.
  intro Hk. apply String.eqb_neq. intros ->.
  rewrite (ends_with_slash_app y "/" "") in Hk. discriminate.
Qed.

Lemma eqb_snoc_slash (a b : string) :
  String.eqb (a ++ "/") (b ++ "/") = String.eqb a b.
Proof.
  revert b. induction a as [|x a IH]; intros [|y b]; cbn [append String.eqb].
  - reflexivity.
  - destruct (Ascii.eqb "/" y); [|reflexivity]. now destruct b.
  - destruct (Ascii.eqb x "/"); [|reflexivity]. now destruct a.
  - destruct (Ascii.eqb x y); [apply IH|reflexivity].
Qed.

Lemma eqb_length (a b : string) :
  String.length a <> String.length b -> String.eqb a b = false.
Proof. intro H. apply String.eqb_neq. intros ->. now apply H. Qed.

(** A canonical path is rooted. *)
Lemma cleanPath_rooted (p : string) :
  exists rest, cleanPath p = String "/" rest.
Proof.
  unfold cleanPath, Clean_rooted. destruct (String.eqb p ""); [now eexists|].
  destruct (_ && _); eexists; reflexivity.
Qed.

Lemma clean_rooted (p : string) :
  cleanPath p = p -> String.prefix "/" p = true /\ p <> "".
Proof.
  intro E. destruct (cleanPath_rooted p) as [rest Er]. rewrite E in Er.
  subst p. split; [|discriminate]. cbn [String.prefix].
  destruct (ascii_dec "/" "/"); [now destruct rest|congruence].
Qed.

(** The outer mux has no subtree but [/]: it never redirects to a path
    with a slash added. *)
Lemma outer_no_slash_redirect (P : string) (site ws : Handler)
  (path : string) :
  shouldRedirect [("/", site); (P ++ "ws", ws)] path = false.
Proof.
  unfold shouldRedirect. destruct (registered _ path); [reflexivity|].
  destruct path as [|c path]; [reflexivity|].
  cbn [String.length Nat.eqb registered existsb fst].
  rewrite (eqb_add_slash (P ++ "ws")) by apply ends_with_slash_ws.
  replace (String.eqb "/" (String c path ++ "/")) with false; [reflexivity|].
  symmetry. apply eqb_length. cbn [append String.length].
  rewrite length_app. cbn. lia.
Qed.

(** A request with a canonical path is looked up under that path, whatever
    its method; any other than CONNECT is looked up under the canonical
    path. *)
Lemma mux_path_clean (r : Request) :
  cleanPath (Path r) = Path r -> mux_path r = Path r.
Proof. intro E. unfold mux_path. now destruct (String.eqb _ "CONNECT"). Qed.

Lemma mux_path_not_connect (r : Request) :
  Method r <> "CONNECT" -> mux_path r = cleanPath (Path r).
Proof.
  intro E. unfold mux_path. apply String.eqb_neq in E. now rewrite E.
Qed.

(** Where the outer mux sends a request. *)
Lemma ws_mux_route (P : string) (site ws : Handler) (r : Request) :
  mux_handler [("/", site); (P ++ "ws", ws)] r =
  if String.eqb (RequestURI r) "*"
  then {| layers := []; outcome := BadRequest |}
  else if negb (String.eqb (mux_path r) (Path r))
  then RedirectHandler (mux_path r) r
  else if String.eqb (P ++ "ws") (Path r) then ws r
  else if String.prefix "/" (Path r) then site r
  else NotFoundHandler r.
Proof.
  assert (E : pathMatch (P ++ "ws") (Path r) = String.eqb (P ++ "ws") (Path r)).
  { unfold pathMatch. now rewrite ends_with_slash_ws. }
  unfold mux_handler. destruct (String.eqb (RequestURI r) "*"); [reflexivity|].
  cbv zeta. rewrite outer_no_slash_redirect.
  destruct (negb (String.eqb (mux_path r) (Path r))); [reflexivity|].
  cbn [mux_match]. rewrite E.
  change (pathMatch "/" (Path r)) with (String.prefix "/" (Path r)).
  destruct (String.prefix "/" (Path r)).
  - destruct (String.eqb (P ++ "ws") (Path r)); [|reflexivity].
    change (String.length "/") with 1%nat. now rewrite length_ws.
  - destruct (String.eqb (P ++ "ws") (Path r)); reflexivity.
Qed.

(** [setupHandlers], with the table of the site in the open. *)
Lemma setupHandlers_table (Generate : Z -> string) (server : Server)
  (r : Request) :
  let P := URLPath (fst (get_URL Generate server)) in
  let o := options server in
  let site :=
    mux_handler
      [ (P, if negb (String.eqb (IndexFile o) "") then handleCustomIndex
            else StripPrefix P staticFileHandler);
        (P ++ "js/", StripPrefix P staticFileHandler);
        (P ++ "favicon.png", StripPrefix P staticFileHandler);
        (P ++ "auth_token.js", handleAuthToken) ] in
  fst (setupHandlers Generate server) r =
  through Logger
    (if String.eqb (RequestURI r) "*"
     then {| layers := []; outcome := BadRequest |}
     else if negb (String.eqb (mux_path r) (Path r))
     then RedirectHandler (mux_path r) r
     else if String.eqb (P ++ "ws") (Path r) then handleWS r
     else if String.prefix "/" (Path r) then
       through Headers
         (if EnableBasicAuth o then wrapBasicAuth site (Credential o) r
          else site r)
     else NotFoundHandler r).
Proof.
  unfold setupHandlers.
  destruct (get_URL Generate server) as [u server'] eqn:E.
  assert (Ho : options server' = options server).
  { unfold get_URL in E. destruct (url server); inversion E; reflexivity. }
  cbn [fst]. rewrite Ho. unfold wrapLogger. rewrite ws_mux_route.
  destruct (String.eqb (RequestURI r) "*"); [reflexivity|].
  destruct (negb (String.eqb (mux_path r) (Path r))); [reflexivity|].
  destruct (String.eqb (URLPath u ++ "ws") (Path r)); [reflexivity|].
  destruct (String.prefix "/" (Path r)); [|reflexivity].
  unfold wrapHeaders. destruct (EnableBasicAuth (options server)); reflexivity.
Qed.

End ServerFacts.

Module ServerProperties.
Import Server ServerFacts.
Local Open Scope string_scope.

(** C1, as stated, fails: with basic authentication configured, a request
    for the upgrade endpoint that presents no credential is handed to the
    websocket handler; only the logger has seen it.  The same request for
    the index is refused. *)
Lemma ws_endpoint_skips_basic_auth :
  EnableBasicAuth (options (fst (New tt basic_auth_options))) = true /\
  BasicCredential anonymous_ws_request = None /\
  fst (setupHandlers no_random (fst (New tt basic_auth_options)))
    anonymous_ws_request
  = {| layers := [Logger]; outcome := HandedTo WebSocket "/ws" |} /\
  fst (setupHandlers no_random (fst (New tt basic_auth_options)))
    anonymous_index_request
  = {| layers := [Logger; Headers]; outcome := Unauthorized |}.
Proof. repeat split. Qed.

(** C1, amended: with basic authentication configured, a request (in
    canonical form) for any path other than the upgrade endpoint is refused
    as Unauthorized when its credential is missing or does not match, and
    no request for such a path reaches a handler but through the
    credential check; a request for the upgrade endpoint goes to the
    websocket handler without that check.  The mux itself answers two
    kinds of request, and then no handler runs and no credential is asked:
    the request target [*] is a bad request, and a path that is not
    canonical (of a method other than CONNECT) is redirected to the
    canonical path. *)
Theorem basic_auth_guards_site_only (Generate : Z -> string)
  (server : Server) (r : Request) :
  EnableBasicAuth (options server) = true ->
  let h := fst (setupHandlers Generate server) in
  let P := URLPath (fst (get_URL Generate server)) in
  (RequestURI r = "*" ->
   h r = {| layers := [Logger]; outcome := BadRequest |}) /\
  (RequestURI r <> "*" -> Method r <> "CONNECT" ->
   cleanPath (Path r) <> Path r ->
   h r = {| layers := [Logger]; outcome := Redirect (cleanPath (Path r)) |}) /\
  (RequestURI r <> "*" -> cleanPath (Path r) = Path r -> Path r = P ++ "ws" ->
   h r = {| layers := [Logger]; outcome := HandedTo WebSocket (Path r) |}) /\
  (RequestURI r <> "*" -> cleanPath (Path r) = Path r -> Path r <> P ++ "ws" ->
   BasicCredential r <> Some (Credential (options server)) ->
   h r = {| layers := [Logger; Headers]; outcome := Unauthorized |}) /\
  (Path r <> P ++ "ws" ->
   forall leaf p, outcome (h r) = HandedTo leaf p ->
   In BasicAuth (layers (h r)) /\
   BasicCredential r = Some (Credential (options server))).
Proof.
  intros Hauth h P. unfold h. rewrite setupHandlers_table. fold P.
  rewrite Hauth.
  match goal with
  | |- context [wrapBasicAuth ?s _ _] => set (site := s)
  end.
  split; [|split; [|split; [|split]]].
  - intros ->. reflexivity.
  - intros Hu Hm Hc. apply String.eqb_neq in Hu. rewrite Hu.
    rewrite (mux_path_not_connect _ Hm).
    apply String.eqb_neq in Hc. rewrite Hc. reflexivity.
  - intros Hu Hc E. apply String.eqb_neq in Hu. rewrite Hu.
    rewrite (mux_path_clean _ Hc), String.eqb_refl. cbn [negb].
    rewrite (proj2 (String.eqb_eq _ _) (eq_sym E)). reflexivity.
  - intros Hu Hc Hp Hcred. apply String.eqb_neq in Hu. rewrite Hu.
    rewrite (mux_path_clean _ Hc), String.eqb_refl. cbn [negb].
    destruct (String.eqb_spec (P ++ "ws") (Path r)) as [E|_]; [now elim Hp|].
    rewrite (proj1 (clean_rooted _ Hc)).
    unfold wrapBasicAuth. destruct (BasicCredential r) as [presented|];
      [|reflexivity].
    destruct (String.eqb_spec presented (Credential (options server))) as [->|_];
      [now elim Hcred|reflexivity].
  - intros Hp leaf p.
    destruct (String.eqb (RequestURI r) "*"); [discriminate|].
    destruct (negb (String.eqb (mux_path r) (Path r))); [discriminate|].
    destruct (String.eqb_spec (P ++ "ws") (Path r)) as [E|_]; [now elim Hp|].
    destruct (String.prefix "/" (Path r)); [|discriminate].
    unfold wrapBasicAuth. destruct (BasicCredential r) as [presented|];
      [|discriminate].
    destruct (String.eqb presented (Credential (options server))) eqn:E;
      [|discriminate].
    apply String.eqb_eq in E. rewrite E. intros _. cbn. tauto.
Qed.

Lemma basic_auth_guards_site_only_witness :
  EnableBasicAuth (options (fst (New tt basic_auth_options))) = true /\
  RequestURI anonymous_index_request <> "*" /\
  cleanPath (Path anonymous_index_request) = Path anonymous_index_request /\
  Path anonymous_index_request <> "/" ++ "ws" /\
  BasicCredential anonymous_index_request <> Some "user:pass" /\
  fst (setupHandlers no_random (fst (New tt basic_auth_options)))
    anonymous_index_request
  = {| layers := [Logger; Headers]; outcome := Unauthorized |}.
Proof.
  assert (Hu : RequestURI anonymous_index_request <> "*") by discriminate.
  assert (Hk : cleanPath (Path anonymous_index_request)
               = Path anonymous_index_request) by reflexivity.
  assert (Hp : Path anonymous_index_request <> "/" ++ "ws") by discriminate.
  assert (Hc : BasicCredential anonymous_index_request <> Some "user:pass")
    by discriminate.
  split; [reflexivity|]. split; [exact Hu|]. split; [exact Hk|].
  split; [exact Hp|]. split; [exact Hc|].
  exact (proj1 (proj2 (proj2 (proj2 (basic_auth_guards_site_only no_random
                                       (fst (New tt basic_auth_options))
                                       anonymous_index_request eq_refl))))
           Hu Hk Hp Hc).
Defined.

(** C9: the origin check of the upgrader made by [New] accepts every
    request, whatever its Origin header. *)
Theorem check_origin_accepts_all {F : Type} (factory : F) (options : Options)
  (r : Request) :
  CheckOrigin (upgrader (fst (New factory options))) r = true /\
  snd (New factory options) = None.
Proof. split; reflexivity. Qed.

End ServerProperties.

(** ** Properties of [Run] *)

Module LifecycleFacts.
Import Server Lifecycle.

Section Run.
Variable Expand : string -> string.
Variable o : Options.

Lemma exec_app (s : Coordinator) (pre post : list Label) :
  exec o s (pre ++ post) =
  match exec o s pre with
  | Some s1 => exec o s1 post
  | None => None
  end.
Proof.
  revert s. induction pre as [|l pre IH]; intro s; cbn [app exec].
  - reflexivity.
  - destruct (step o s l); [apply IH|reflexivity].
Qed.

(** Nothing happens after the return. *)
Lemma step_returned (s : Coordinator) (l : Label) (e : option error) :
  pc s = Returned e -> step o s l = None.
Proof.
  intro H. destruct l; cbn [step session_step]; rewrite H; reflexivity.
Qed.

Lemma exec_returned (s s' : Coordinator) (trace : list Label) (e : option error) :
  pc s = Returned e -> exec o s trace = Some s' -> trace = [] /\ s' = s.
Proof.
  intros H. destruct trace as [|l trace]; cbn [exec].
  - intro E. inversion E. auto.
  - rewrite (step_returned s l e H). discriminate.
Qed.

(** While [Run] waits, a step is the end of a session or the return. *)
Lemma step_waiting (s s' : Coordinator) (l : Label) (e : option error) :
  pc s = Waiting e -> step o s l = Some s' ->
  (l = Deregister /\ wsWG s = S (wsWG s') /\ pc s' = Waiting e) \/
  (l = WaitReturns /\ wsWG s = O /\ wsWG s' = O /\ pc s' = Returned e).
Proof.
  intros H. destruct l; cbn [step session_step]; rewrite H; try discriminate.
  - destruct (wsWG s) as [|n] eqn:E; [discriminate|].
    intro E'. inversion E'. left. cbn. auto.
  - destruct (wsWG s) as [|n] eqn:E; [|discriminate].
    intro E'. inversion E'. right. cbn. auto.
Qed.

(** What [Run] returns is fixed when the [select] is left. *)
Lemma exec_waiting (s s' : Coordinator) (trace : list Label)
  (e e' : option error) :
  pc s = Waiting e -> exec o s trace = Some s' -> pc s' = Returned e' ->
  e' = e /\ deregistrations trace = wsWG s /\ wsWG s' = O.
Proof.
  revert s. induction trace as [|l trace IH]; intros s Hs; cbn [exec].
  - intros E Hr. inversion E; subst. congruence.
  - destruct (step o s l) as [s1|] eqn:E1; [|discriminate].
    intros E Hr.
    destruct (step_waiting s s1 l e Hs E1)
      as [(-> & Hn & Hpc)|(-> & Hn & Hn' & Hpc)].
    + destruct (IH s1 Hpc E Hr) as (He & Hd & Hz).
      unfold deregistrations in *. cbn [filter length]. rewrite Hd, Hn. auto.
    + destruct (exec_returned s1 s' trace e Hpc E) as [-> ->].
      rewrite Hpc in Hr. inversion Hr. auto.
Qed.

Lemma exec_waiting_stays (s s' : Coordinator) (trace : list Label)
  (e : option error) :
  pc s = Waiting e -> exec o s trace = Some s' ->
  pc s' = Waiting e \/ pc s' = Returned e.
Proof.
  revert s. induction trace as [|l trace IH]; intros s Hs; cbn [exec].
  - intro E. inversion E; subst. auto.
  - destruct (step o s l) as [s1|] eqn:E1; [|discriminate].
    destruct (step_waiting s s1 l e Hs E1) as [(_ & _ & H)|(_ & _ & _ & H)].
    + now apply IH.
    + intro E. destruct (exec_returned s1 s' trace _ H E) as [_ ->]. auto.
Qed.

(** While [Run] serves, it keeps serving until the trigger. *)
Lemma step_serving (s s' : Coordinator) (l : Label) :
  pc s = Serving -> step o s l = Some s' ->
  (pc s' = Serving /\ (l = Register \/ l = Deregister)) \/
  (exists t late sel, l = Shutdown t late /\ main_select t = Some sel /\
                      possible o t = true /\
                      pc s' = Waiting (after_select sel late) /\
                      wsWG s' = wsWG s).
Proof.
  intros H. destruct l; cbn [step session_step]; rewrite H.
  - intro E. inversion E. left. cbn. auto.
  - destruct (wsWG s); [discriminate|]. intro E. inversion E. left. cbn. auto.
  - destruct (main_select t) as [sel|] eqn:Es; [|discriminate].
    destruct (possible o t) eqn:Ep; [|discriminate].
    intro E. inversion E. right. exists t, late_write, sel. cbn. auto.
  - discriminate.
Qed.

Lemma exec_serving_prefix (s s' : Coordinator) (pre : list Label)
  (t : Trigger) (late : bool) (post : list Label) :
  pc s = Serving -> exec o s (pre ++ Shutdown t late :: post) = Some s' ->
  exists s1 sel,
    main_select t = Some sel /\ possible o t = true /\
    pc s1 = Waiting (after_select sel late) /\ exec o s1 post = Some s'.
Proof.
  revert s. induction pre as [|l pre IH]; intros s Hs; cbn [app exec].
  - destruct (step o s (Shutdown t late)) as [s1|] eqn:E1; [|discriminate].
    intro E. destruct (step_serving s s1 _ Hs E1)
      as [(_ & [H|H])|(t0 & late0 & sel & H & Hsel & Hp & Hpc & _)];
      try discriminate.
    inversion H; subst. exists s1, sel. auto.
  - destruct (step o s l) as [s1|] eqn:E1; [|discriminate].
    intro E. destruct (step_serving s s1 _ Hs E1)
      as [(Hpc & _)|(t0 & late0 & sel & -> & Hsel & Hp & Hpc & _)].
    + now apply (IH s1).
    + exfalso. rewrite exec_app in E.
      destruct (exec o s1 pre) as [s2|] eqn:E2; [|discriminate].
      destruct (exec_waiting_stays s1 s2 pre _ Hpc E2) as [H|H];
        cbn [exec step] in E; rewrite H in E; discriminate.
Qed.

Lemma after_select_nil (t : Trigger) (sel : Selected) (late : bool) :
  possible o t = true -> main_select t = Some sel ->
  (after_select sel late = None <-> t = GracefulDone).
Proof.
  destruct t as [| |e|e|]; cbn; intros Hp Hs; inversion Hs; subst; cbn.
  - tauto.
  - destruct late; split; discriminate.
  - destruct e; cbn in *; try discriminate; split; discriminate.
  - destruct late; split; discriminate.
  - destruct late; split; discriminate.
Qed.

Lemma exec_serving_returned (s s' : Coordinator) (trace : list Label)
  (e : option error) :
  pc s = Serving -> exec o s trace = Some s' -> pc s' = Returned e ->
  wsWG s' = O.
Proof.
  revert s. induction trace as [|l trace IH]; intros s Hs; cbn [exec].
  - intros E Hr. inversion E; subst. congruence.
  - destruct (step o s l) as [s1|] eqn:E1; [|discriminate].
    intros E Hr.
    destruct (step_serving s s1 l Hs E1)
      as [(Hpc & _)|(t & late & sel & _ & _ & _ & Hpc & _)].
    + now apply (IH s1).
    + now destruct (exec_waiting s1 s' trace _ e Hpc E Hr) as (_ & _ & Hz).
Qed.

Lemma exec_drain (s : Coordinator) (e : option error) :
  pc s = Waiting e ->
  exec o s (repeat Deregister (wsWG s) ++ [WaitReturns])
  = Some {| pc := Returned e; wsWG := O;
            active := active s - Z.of_nat (wsWG s) |}.
Proof.
  destruct s as [p n a]. cbn [pc wsWG active]. intros ->.
  revert a. induction n as [|n IH]; intro a.
  - cbn. do 2 f_equal. lia.
  - cbn [repeat app exec step session_step pc wsWG active].
    rewrite IH. do 2 f_equal. lia.
Qed.

End Run.

End LifecycleFacts.

Module RunProperties.
Import Server Lifecycle LifecycleFacts.

(** C4, as stated, fails: when the context given to [Run] is cancelled,
    which is neither the timer nor a failure of the listener, [Run] returns
    the non-nil [context.Canceled]. *)
Lemma caller_cancel_returns_error :
  possible basic_auth_options (CallerDone Canceled) = true /\
  timer_or_listener_failure (CallerDone Canceled) = false /\
  Run (fun path => path) basic_auth_options no_files
    [Shutdown (CallerDone Canceled) false; WaitReturns]
  = Some (Some Canceled).
Proof. repeat split. Qed.

(** C4, amended: [Run] returns nil exactly when its shutdown was triggered
    by the graceful-shutdown context; it returns a non-nil error when the
    trigger was the timer or a failure of the listener, and also when it
    was the cancellation of the caller's context or of the context handed
    to the websocket handler.  For every trigger that can happen, [Run]
    does return once no session is left. *)
Theorem run_returns_nil_only_on_graceful_shutdown (Expand : string -> string)
  (o : Options) (fs : Files) (t : Trigger) (late_write : bool) :
  (setupHTTPServer Expand o fs = None -> possible o t = true ->
   exists err, Run Expand o fs [Shutdown t late_write; WaitReturns] = Some err) /\
  (forall pre post err,
      Run Expand o fs (pre ++ Shutdown t late_write :: post) = Some err ->
      (err = None <-> t = GracefulDone) /\
      (timer_or_listener_failure t = true -> err <> None)).
Proof.
  split.
  - intros Hsetup Hp. unfold Run, start. rewrite Hsetup.
    cbn [exec step pc wsWG active]. rewrite Hp.
    destruct t as [| |e|e|]; cbn; eauto.
  - intros pre post err. unfold Run.
    destruct (exec o (start Expand o fs) (pre ++ Shutdown t late_write :: post))
      as [[p n a]|] eqn:E; [|discriminate].
    destruct p as [| |e]; try discriminate. intro Herr. inversion Herr; subst e.
    assert (Hstart : pc (start Expand o fs) = Serving).
    { unfold start in *. destruct (setupHTTPServer Expand o fs); [|reflexivity].
      eapply exec_returned in E; [|reflexivity].
      destruct E as [E _]. now destruct pre. }
    destruct (exec_serving_prefix o _ _ pre t late_write post Hstart E)
      as (s1 & sel & Hsel & Hp & Hpc & Epost).
    destruct (exec_waiting o s1 _ post _ err Hpc Epost eq_refl) as (-> & _ & _).
    pose proof (after_select_nil o t sel late_write Hp Hsel) as Hnil.
    split; [exact Hnil|].
    intros Ht Hn. apply Hnil in Hn. subst t. discriminate Ht.
Qed.

Lemma run_returns_nil_only_on_graceful_shutdown_witness :
  Run (fun path => path) basic_auth_options no_files
    ([Register; Deregister] ++ Shutdown GracefulDone false :: [WaitReturns])
  = Some None /\
  (@None error = None <-> GracefulDone = GracefulDone).
Proof.
  assert (H : Run (fun path => path) basic_auth_options no_files
                ([Register; Deregister] ++ Shutdown GracefulDone false
                                        :: [WaitReturns]) = Some None)
    by reflexivity.
  split; [exact H|].
  exact (proj1 (proj2 (run_returns_nil_only_on_graceful_shutdown
                         (fun path => path) basic_auth_options no_files
                         GracefulDone false)
                  [Register; Deregister] [WaitReturns] None H)).
Defined.

(** C5: [Run] never returns while a session is registered.  Once it has
    left its [select] with [N] sessions registered, it returns only after
    exactly [N] deregistrations, in whatever order the sessions end; and
    after these [N] deregistrations it does return. *)
Theorem run_waits_for_all_sessions (Expand : string -> string) (o : Options)
  (fs : Files) :
  (forall trace final e,
      exec o (start Expand o fs) trace = Some final ->
      pc final = Returned e -> wsWG final = O) /\
  (forall s err,
      pc s = Waiting err ->
      exec o s (repeat Deregister (wsWG s) ++ [WaitReturns])
      = Some {| pc := Returned err; wsWG := O;
                active := active s - Z.of_nat (wsWG s) |} /\
      (forall trace s' err',
          exec o s trace = Some s' -> pc s' = Returned err' ->
          deregistrations trace = wsWG s /\ wsWG s' = O /\ err' = err)).
Proof.
  split.
  - intros trace final e E Hr. unfold start in E.
    destruct (setupHTTPServer Expand o fs).
    + eapply exec_returned in E; [|reflexivity]. destruct E as [_ ->].
      reflexivity.
    + eapply exec_serving_returned; [|exact E|exact Hr]. reflexivity.
  - intros s err Hs. split; [now apply exec_drain|].
    intros trace s' err' E Hr.
    destruct (exec_waiting o s s' trace err err' Hs E Hr) as (He & Hd & Hz).
    auto.
Qed.

Lemma run_waits_for_all_sessions_witness :
  pc {| pc := Waiting (Some Canceled); wsWG := 2; active := 2 |}
  = Waiting (Some Canceled) /\
  exec basic_auth_options
    {| pc := Waiting (Some Canceled); wsWG := 2; active := 2 |}
    [Deregister; Deregister; WaitReturns]
  = Some {| pc := Returned (Some Canceled); wsWG := 0; active := 0 |} /\
  exec basic_auth_options
    {| pc := Waiting (Some Canceled); wsWG := 2; active := 2 |}
    [Deregister; WaitReturns]
  = None.
Proof.
  split; [reflexivity|]. split; [|reflexivity].
  exact (proj1 (proj2 (run_waits_for_all_sessions (fun path => path)
                         basic_auth_options no_files)
                  {| pc := Waiting (Some Canceled); wsWG := 2; active := 2 |}
                  (Some Canceled) eq_refl)).
Defined.

End RunProperties.

(** ** The terminal widget *)

Module XtermFacts.
Import Xterm.

Lemma NoDup_ids_filter (p : Timer -> bool) (l : list Timer) :
  NoDup (map id l) -> NoDup (map id (filter p l)).
Proof.
  induction l as [|t l IH]; cbn [map filter]; intro H; [constructor|].
  inversion_clear H as [|? ? Hnot Hl].
  destruct (p t); cbn [map]; [|now apply IH].
  constructor; [|now apply IH].
  intro Hin. apply Hnot. apply in_map_iff in Hin.
  destruct Hin as (t' & E & Hin). apply filter_In in Hin.
  apply in_map_iff. exists t'. tauto.
Qed.

Lemma NoDup_ids_snoc (l : list Timer) (t : Timer) :
  NoDup (map id l) -> (forall t', In t' l -> id t' <> id t) ->
  NoDup (map id (l ++ [t])).
Proof.
  intros Hl Hfresh. rewrite map_app. cbn [map].
  apply NoDup_app; [assumption|repeat constructor; intros []|].
  intros i Hi [<-|[]]. apply in_map_iff in Hi.
  destruct Hi as (t' & E & Hin). now apply (Hfresh t').
Qed.

Lemma in_cleared (i : nat) (x : TermXterm) (t : Timer) :
  In t (pending (clearTimeout i x)) <-> In t (pending x) /\ id t <> i.
Proof.
  unfold clearTimeout. cbn [pending]. rewrite filter_In.
  destruct (Nat.eqb_spec (id t) i); cbn [negb]; intuition congruence.
Qed.

Lemma consistent_constructor (n : nat) :
  (1 <= n)%nat -> timers_consistent (constructor n).
Proof.
  intro Hn. unfold timers_consistent, constructor. cbn.
  repeat split; try constructor; try tauto; try discriminate.
Qed.

Lemma truthy_positive (x : TermXterm) (i : nat) :
  timers_consistent x -> messageTimer x = Some i ->
  truthy (messageTimer x) = true.
Proof.
  intros (_ & _ & _ & _ & _ & H & _) E. rewrite E. cbn.
  destruct (Nat.eqb_spec i 0); [|reflexivity]. specialize (H i E). lia.
Qed.

Lemma consistent_showMessage (message : jsstring) (timeout : Z) (x : TermXterm) :
  timers_consistent x -> timers_consistent (showMessage message timeout x).
Proof.
  intro Hx. pose proof Hx as (H1 & H2 & H3 & H4 & H5 & H6 & H7 & H8).
  unfold showMessage. change (messageTimer (show message x)) with (messageTimer x).
  destruct (0 <? timeout).
  - destruct (messageTimer x) as [i|] eqn:Em.
    + pose proof (truthy_positive x i Hx Em) as Htr. rewrite Em in Htr. rewrite Htr.
      unfold timers_consistent, setTimeout, set_messageTimer, show.
      cbn [fst snd next_timer pending messageTimer attached resizing clearTimeout].
      repeat split.
      * lia.
      * apply NoDup_ids_snoc; [now apply NoDup_ids_filter|].
        intros t' Hin. apply filter_In in Hin. cbn [id].
        specialize (H3 t' (proj1 Hin)). lia.
      * intros t Hin. apply in_app_or in Hin. destruct Hin as [Hin|[<-|[]]].
        -- apply filter_In in Hin. specialize (H3 t (proj1 Hin)). lia.
        -- cbn. lia.
      * apply in_app_or in H. destruct H as [Hin|[<-|[]]]; [|reflexivity].
        apply filter_In in Hin. destruct Hin as [Hin Hne].
        destruct (H4 t Hin H0) as [E _]. inversion E; subst.
        rewrite Nat.eqb_refl in Hne. discriminate.
      * intros t Hin Ht. apply in_app_or in Hin. destruct Hin as [Hin|[<-|[]]].
        -- apply filter_In in Hin. now apply H5.
        -- discriminate.
      * inversion H; subst. lia.
      * inversion H; subst. lia.
      * intros j Hj. specialize (H7 j Hj). lia.
      * intros j Hj Hr. inversion Hj; subst. specialize (H7 _ Hr). lia.
    + cbn [truthy].
      unfold timers_consistent, setTimeout, set_messageTimer, show.
      cbn [fst snd next_timer pending messageTimer attached resizing].
      repeat split.
      * lia.
      * apply NoDup_ids_snoc; [assumption|].
        intros t' Hin. cbn [id]. specialize (H3 t' Hin). lia.
      * intros t Hin. apply in_app_or in Hin. destruct Hin as [Hin|[<-|[]]].
        -- specialize (H3 t Hin). lia.
        -- cbn. lia.
      * apply in_app_or in H. destruct H as [Hin|[<-|[]]]; [|reflexivity].
        destruct (H4 t Hin H0) as [E _]. discriminate.
      * intros t Hin Ht. apply in_app_or in Hin. destruct Hin as [Hin|[<-|[]]].
        -- now apply H5.
        -- discriminate.
      * inversion H; subst. lia.
      * inversion H; subst. lia.
      * intros j Hj. specialize (H7 j Hj). lia.
      * intros j Hj Hr. inversion Hj; subst. specialize (H7 _ Hr). lia.
  - unfold timers_consistent, show.
    cbn [next_timer pending messageTimer attached resizing].
    repeat split; auto.
    + now apply (H4 t).
    + now apply H6.
    + now apply H6.
Qed.

Lemma consistent_resizeListener (x : TermXterm) :
  timers_consistent x -> timers_consistent (resizeListener x).
Proof.
  intros (H1 & H2 & H3 & H4 & H5 & H6 & H7 & H8).
  unfold resizeListener. destruct (resizing x) as [i|] eqn:Er;
    unfold timers_consistent, setTimeout, set_resizing;
    cbn [fst snd next_timer pending messageTimer attached resizing clearTimeout].
  - split; [lia|]. split.
    { apply NoDup_ids_snoc; [now apply NoDup_ids_filter|].
      intros t' Hin. apply filter_In in Hin. cbn [id].
      specialize (H3 t' (proj1 Hin)). lia. }
    split.
    { intros t Hin. apply in_app_or in Hin. destruct Hin as [Hin|[<-|[]]].
      - apply filter_In in Hin. specialize (H3 t (proj1 Hin)). lia.
      - cbn. lia. }
    split.
    { intros t Hin Ht. apply in_app_or in Hin. destruct Hin as [Hin|[<-|[]]].
      - apply filter_In in Hin. now apply H4.
      - discriminate. }
    split.
    { intros t Hin Ht. apply in_app_or in Hin.
      destruct Hin as [Hin|[<-|[]]]; [|reflexivity].
      apply filter_In in Hin. destruct Hin as [Hin Hne].
      specialize (H5 t Hin Ht). inversion H5; subst.
      rewrite Nat.eqb_refl in Hne. discriminate. }
    split; [intros j Hj; specialize (H6 j Hj); lia|].
    split; [intros j Hj; inversion Hj; lia|].
    intros j Hj Hr. inversion Hr; subst. specialize (H6 _ Hj). lia.
  - split; [lia|]. split.
    { apply NoDup_ids_snoc; [assumption|].
      intros t' Hin. cbn [id]. specialize (H3 t' Hin). lia. }
    split.
    { intros t Hin. apply in_app_or in Hin. destruct Hin as [Hin|[<-|[]]].
      - specialize (H3 t Hin). lia.
      - cbn. lia. }
    split.
    { intros t Hin Ht. apply in_app_or in Hin. destruct Hin as [Hin|[<-|[]]].
      - now apply H4.
      - discriminate. }
    split.
    { intros t Hin Ht. apply in_app_or in Hin.
      destruct Hin as [Hin|[<-|[]]]; [|reflexivity].
      specialize (H5 t Hin Ht). discriminate. }
    split; [intros j Hj; specialize (H6 j Hj); lia|].
    split; [intros j Hj; inversion Hj; lia|].
    intros j Hj Hr. inversion Hr; subst. specialize (H6 _ Hj). lia.
Qed.

Lemma consistent_listening (b : bool) (x : TermXterm) :
  timers_consistent x -> timers_consistent (set_listening b x).
Proof. exact (fun H => H). Qed.

(** A pending timer can run: the message it removes is in the page. *)
Lemma consistent_fire (x : TermXterm) (t : Timer) :
  timers_consistent x -> In t (pending x) ->
  exists x', run_task (task t) (clearTimeout (id t) x) = Some x' /\
             timers_consistent x' /\
             (forall t', In t' (pending x') <-> In t' (pending x) /\ id t' <> id t).
Proof.
  intros (H1 & H2 & H3 & H4 & H5 & H6 & H7 & H8) Hin.
  assert (Hc : timers_consistent (clearTimeout (id t) x)).
  { unfold timers_consistent. cbn [clearTimeout next_timer pending messageTimer
                                   attached resizing].
    split; [assumption|]. split; [now apply NoDup_ids_filter|].
    split; [intros t' Ht'; apply filter_In in Ht'; now apply H3|].
    split; [intros t' Ht'; apply filter_In in Ht'; now apply H4|].
    split; [intros t' Ht'; apply filter_In in Ht'; now apply H5|].
    auto. }
  destruct (task t) eqn:Et; cbn [run_task].
  - change (attached (clearTimeout (id t) x)) with (attached x).
    rewrite (proj2 (H4 t Hin Et)).
    eexists. split; [reflexivity|]. split.
    + destruct Hc as (C1 & C2 & C3 & C4 & C5 & C6 & C7 & C8).
      unfold timers_consistent.
      cbn [set_attached next_timer pending messageTimer attached resizing] in *.
      split; [assumption|]. split; [assumption|]. split; [assumption|].
      split; [|auto].
      intros t' Ht' Etask. exfalso.
      apply filter_In in Ht'. destruct Ht' as [Ht' Hne].
      destruct (H4 t' Ht' Etask) as [E' _]. destruct (H4 t Hin Et) as [E _].
      rewrite E in E'. inversion E' as [E'']. rewrite E'', Nat.eqb_refl in Hne.
      discriminate.
    + intro t'. apply (in_cleared (id t) x t').
  - eexists. split; [reflexivity|]. split; [exact Hc|].
    intro t'. apply (in_cleared (id t) x t').
Qed.

Lemma consistent_step (x : TermXterm) (e : Event) :
  timers_consistent x ->
  exists x', step x e = Some x' /\ timers_consistent x'.
Proof.
  intro Hx. destruct e as [| |message timeout|i|]; cbn [step].
  - eexists. split; [reflexivity|].
    apply consistent_listening. now apply consistent_resizeListener.
  - eexists. split; [reflexivity|].
    destruct (listening x); [now apply consistent_resizeListener|assumption].
  - eexists. split; [reflexivity|]. now apply consistent_showMessage.
  - destruct (find (fun t => (id t =? i)%nat) (pending x)) as [t|] eqn:Ef.
    + apply find_some in Ef. destruct Ef as [Hin Hid].
      apply Nat.eqb_eq in Hid. subst i.
      destruct (consistent_fire x t Hx Hin) as (x' & E & Hx' & _). eauto.
    + eauto.
  - eexists. split; [reflexivity|]. now apply consistent_listening.
Qed.

Lemma consistent_run (events : list Event) (x : TermXterm) :
  timers_consistent x ->
  exists x', run x events = Some x' /\ timers_consistent x'.
Proof.
  revert x. induction events as [|e events IH]; intros x Hx; cbn [run].
  - eauto.
  - destruct (consistent_step x e Hx) as (x1 & -> & Hx1). now apply IH.
Qed.

Lemma filter_none {A} (p : A -> bool) (l : list A) :
  (forall a, In a l -> p a = false) -> filter p l = [].
Proof.
  induction l as [|a l IH]; intro H; cbn [filter]; [reflexivity|].
  rewrite (H a (or_introl eq_refl)). apply IH. intros b Hb. apply H. now right.
Qed.

Lemma count_at_most_one (k : Task) (x : TermXterm) :
  timers_consistent x -> (count_task k x <= 1)%nat.
Proof.
  intros (_ & H2 & _ & H4 & H5 & _). unfold count_task.
  assert (Hsame : forall a b, In a (pending x) -> In b (pending x) ->
                              task a = k -> task b = k -> id a = id b).
  { intros a b Ha Hb Ea Eb. destruct k.
    - destruct (H4 a Ha Ea) as [E1 _]. destruct (H4 b Hb Eb) as [E2 _]. congruence.
    - pose proof (H5 a Ha Ea). pose proof (H5 b Hb Eb). congruence. }
  revert H2 Hsame. clear. induction (pending x) as [|a l IH];
    cbn [map filter length]; intros Hnd Hsame; [lia|].
  inversion_clear Hnd as [|? ? Hnot Hl].
  assert (IHl := IH Hl (fun a' b' Ha Hb => Hsame a' b' (or_intror Ha) (or_intror Hb))).
  destruct (task a) eqn:Ea, k; cbn [length]; try exact IHl.
  - assert (E : filter (fun p => match task p with
                                 | RemoveMessage => true | FitReset => false
                                 end) l = []).
    { apply filter_none.
      intros b Hb. destruct (task b) eqn:Eb; [|reflexivity].
      exfalso. apply Hnot. apply in_map_iff. exists b. split; [|assumption].
      symmetry. apply Hsame; auto. now left. now right. }
    rewrite E. cbn. lia.
  - assert (E : filter (fun p => match task p with
                                 | RemoveMessage => false | FitReset => true
                                 end) l = []).
    { apply filter_none.
      intros b Hb. destruct (task b) eqn:Eb; [reflexivity|].
      exfalso. apply Hnot. apply in_map_iff. exists b. split; [|assumption].
      symmetry. apply Hsame; auto. now left. now right. }
    rewrite E. cbn. lia.
Qed.

Lemma ids_injective (l : list Timer) (a b : Timer) :
  NoDup (map id l) -> In a l -> In b l -> id a = id b -> a = b.
Proof.
  induction l as [|t l IH]; cbn [map]; intros Hnd Ha Hb E; [destruct Ha|].
  inversion_clear Hnd as [|? ? Hnot Hl].
  destruct Ha as [->|Ha], Hb as [->|Hb]; auto.
  - exfalso. apply Hnot. rewrite E. now apply in_map.
  - exfalso. apply Hnot. rewrite <- E. now apply in_map.
Qed.

Lemma find_pending (x : TermXterm) (t : Timer) :
  timers_consistent x -> In t (pending x) ->
  find (fun t' => (id t' =? id t)%nat) (pending x) = Some t.
Proof.
  intros (_ & H2 & _) Hin.
  destruct (find (fun t' => (id t' =? id t)%nat) (pending x)) as [t'|] eqn:Ef.
  - apply find_some in Ef. destruct Ef as [Hin' E]. apply Nat.eqb_eq in E.
    f_equal. now apply (ids_injective (pending x)).
  - apply (find_none _ _ Ef) in Hin. rewrite Nat.eqb_refl in Hin. discriminate.
Qed.

Lemma count_positive (k : Task) (x : TermXterm) (t : Timer) :
  In t (pending x) -> task t = k -> (1 <= count_task k x)%nat.
Proof.
  intros Hin Ek. unfold count_task.
  assert (H : In t (filter (fun p => match task p, k with
                                     | RemoveMessage, RemoveMessage => true
                                     | FitReset, FitReset => true
                                     | _, _ => false
                                     end) (pending x))).
  { apply filter_In. split; [assumption|]. rewrite Ek. now destruct k. }
  destruct (filter _ (pending x)); [destruct H|cbn; lia].
Qed.

Lemma count_none (k : Task) (x : TermXterm) :
  (forall t, In t (pending x) -> task t <> k) -> count_task k x = O.
Proof.
  intro H. unfold count_task. rewrite filter_none; [reflexivity|].
  intros t Hin. specialize (H t Hin). destruct (task t), k; congruence.
Qed.

(** What one run of [resizeListener] leaves. *)
Lemma resizeListener_timer (x : TermXterm) :
  fits (resizeListener x) = fits x /\
  listening (resizeListener x) = listening x /\
  resizing (resizeListener x) = Some (next_timer x) /\
  In {| id := next_timer x; task := FitReset; delay := 200 |}
     (pending (resizeListener x)).
Proof.
  unfold resizeListener. destruct (resizing x);
    cbn [setTimeout set_resizing clearTimeout fst snd fits listening resizing
         pending next_timer];
    repeat split; apply in_or_app; right; now left.
Qed.

Lemma resize_burst (k : nat) (x : TermXterm) :
  timers_consistent x -> listening x = true ->
  exists x' i,
    run x (repeat WindowResize (S k)) = Some x' /\ timers_consistent x' /\
    fits x' = fits x /\ resizing x' = Some i /\
    In {| id := i; task := FitReset; delay := 200 |} (pending x').
Proof.
  revert x. induction k as [|k IH]; intros x Hx Hl.
  - cbn [repeat run step]. rewrite Hl.
    destruct (resizeListener_timer x) as (Hf & _ & Hr & Hin).
    exists (resizeListener x), (next_timer x).
    split; [reflexivity|]. split; [now apply consistent_resizeListener|]. auto.
  - change (repeat WindowResize (S (S k)))
      with (WindowResize :: repeat WindowResize (S k)).
    cbn [run step]. rewrite Hl.
    destruct (resizeListener_timer x) as (Hf & Hl' & _).
    destruct (IH (resizeListener x)) as (x' & i & E & Hx' & Hf' & Hr & Hin).
    + now apply consistent_resizeListener.
    + now rewrite Hl'.
    + exists x', i. split; [exact E|]. split; [exact Hx'|].
      split; [now rewrite Hf'|]. split; assumption.
Qed.

End XtermFacts.

Module XtermProperties.
Import Xterm XtermFacts.

(** X12: no event sequence makes a callback of the widget throw:
    whenever the timer that removes the message expires, the message is a
    child of the element. *)
Theorem message_removal_never_fails (first_id : nat) (events : list Event) :
  (1 <= first_id)%nat ->
  exists x, run (constructor first_id) events = Some x.
Proof.
  intro Hn.
  destruct (consistent_run events (constructor first_id)
              (consistent_constructor first_id Hn)) as (x & E & _).
  eauto.
Qed.

Lemma message_removal_never_fails_witness :
  (1 <= 1)%nat /\
  exists x,
    run (constructor 1)
      [Opened; Show (lit "80 x 24") 2000; Show (lit "disconnected") 0;
       Fire 2; Fire 2; WindowResize; Fire 1] = Some x.
Proof.
  assert (H : (1 <= 1)%nat) by lia.
  split; [exact H|].
  exact (message_removal_never_fails 1
           [Opened; Show (lit "80 x 24") 2000; Show (lit "disconnected") 0;
            Fire 2; Fire 2; WindowResize; Fire 1] H).
Defined.

(** X13: in every state the widget reaches, at most one timer that
    removes the message and at most one timer that refits the terminal are
    pending. *)
Theorem one_pending_timer_of_each_kind (first_id : nat)
  (events : list Event) (x : TermXterm) :
  (1 <= first_id)%nat -> run (constructor first_id) events = Some x ->
  (count_task RemoveMessage x <= 1)%nat /\ (count_task FitReset x <= 1)%nat.
Proof.
  intros Hn E.
  destruct (consistent_run events (constructor first_id)
              (consistent_constructor first_id Hn)) as (x' & E' & Hx).
  rewrite E in E'. inversion E'; subst x'.
  split; now apply count_at_most_one.
Qed.

Lemma one_pending_timer_of_each_kind_witness :
  (1 <= 1)%nat /\
  run (constructor 1)
    [Opened; WindowResize; WindowResize; Show (lit "a") 5; Show (lit "b") 7]
  = Some (showMessage (lit "b") 7
            (showMessage (lit "a") 5
               (resizeListener (resizeListener (on_open (constructor 1)))))) /\
  (count_task RemoveMessage
     (showMessage (lit "b") 7
        (showMessage (lit "a") 5
           (resizeListener (resizeListener (on_open (constructor 1))))))
   <= 1)%nat.
Proof.
  assert (H : (1 <= 1)%nat) by lia.
  assert (E : run (constructor 1)
                [Opened; WindowResize; WindowResize; Show (lit "a") 5; Show (lit "b") 7]
              = Some (showMessage (lit "b") 7
                        (showMessage (lit "a") 5
                           (resizeListener
                              (resizeListener (on_open (constructor 1)))))))
    by reflexivity.
  split; [exact H|]. split; [exact E|].
  exact (proj1 (one_pending_timer_of_each_kind 1 _ _ H E)).
Defined.

(** X14: however many "resize" events of the window arrive before a
    timer expires, one refit is pending afterwards, and when it expires the
    terminal is refitted once and no refit is left pending. *)
Theorem resize_burst_refits_once (first_id : nat) (events : list Event)
  (x : TermXterm) (k : nat) :
  (1 <= first_id)%nat -> run (constructor first_id) events = Some x ->
  listening x = true ->
  exists x' i x'',
    run x (repeat WindowResize (S k)) = Some x' /\
    fits x' = fits x /\ resizing x' = Some i /\
    count_task FitReset x' = 1%nat /\
    step x' (Fire i) = Some x'' /\
    fits x'' = S (fits x) /\ count_task FitReset x'' = O.
Proof.
  intros Hn E Hl.
  destruct (consistent_run events (constructor first_id)
              (consistent_constructor first_id Hn)) as (x0 & E0 & Hx).
  rewrite E in E0. inversion E0; subst x0.
  destruct (resize_burst k x Hx Hl) as (x' & i & Er & Hx' & Hf & Hr & Hin).
  set (t := {| id := i; task := FitReset; delay := 200 |}) in *.
  exists x', i. cbn [step]. change i with (id t). rewrite (find_pending x' t Hx' Hin).
  cbn [task t run_task]. eexists. split; [exact Er|].
  split; [exact Hf|]. split; [exact Hr|]. split.
  { apply Nat.le_antisymm; [now apply count_at_most_one|].
    now apply (count_positive FitReset x' t). }
  split; [reflexivity|]. split; [cbn [fits clearTimeout]; now rewrite Hf|].
  apply count_none. cbn [pending clearTimeout]. intros t' Hin' Et'.
  apply filter_In in Hin'. destruct Hin' as [Hin' Hne].
  destruct Hx' as (_ & _ & _ & _ & H5 & _).
  specialize (H5 t' Hin' Et'). rewrite Hr in H5. inversion H5 as [E5].
  cbn [id t] in Hne. rewrite E5, Nat.eqb_refl in Hne. discriminate.
Qed.

Lemma resize_burst_refits_once_witness :
  (1 <= 1)%nat /\
  run (constructor 1) [Opened] = Some (on_open (constructor 1)) /\
  listening (on_open (constructor 1)) = true /\
  exists x' i x'',
    run (on_open (constructor 1)) (repeat WindowResize 3) = Some x' /\
    fits x' = O /\ resizing x' = Some i /\
    count_task FitReset x' = 1%nat /\
    step x' (Fire i) = Some x'' /\
    fits x'' = 1%nat /\ count_task FitReset x'' = O.
Proof.
  assert (H : (1 <= 1)%nat) by lia.
  split; [exact H|]. split; [reflexivity|]. split; [reflexivity|].
  exact (resize_burst_refits_once 1 [Opened] (on_open (constructor 1)) 2
           H eq_refl eq_refl).
Defined.

(** X15: a message shown without timeout right after a message shown
    with one does not stay: the timer of the earlier message is still
    pending, and when it expires it removes the later message. *)
Theorem untimed_message_removed_by_earlier_timer (first_id : nat)
  (events : list Event) (x : TermXterm) (m1 m2 : jsstring) (t1 t2 : Z) :
  (1 <= first_id)%nat -> run (constructor first_id) events = Some x ->
  0 < t1 -> t2 <= 0 ->
  let x2 := showMessage m2 t2 (showMessage m1 t1 x) in
  textContent x2 = m2 /\ attached x2 = true /\
  exists i x3,
    messageTimer x2 = Some i /\ step x2 (Fire i) = Some x3 /\
    textContent x3 = m2 /\ attached x3 = false.
Proof.
  intros Hn E Ht1 Ht2 x2.
  destruct (consistent_run events (constructor first_id)
              (consistent_constructor first_id Hn)) as (x0 & E0 & Hx).
  rewrite E in E0. inversion E0; subst x0.
  assert (Hx1 : timers_consistent (showMessage m1 t1 x))
    by now apply consistent_showMessage.
  assert (Hx2 : timers_consistent x2) by now apply consistent_showMessage.
  assert (E2 : x2 = show m2 (showMessage m1 t1 x)).
  { unfold x2, showMessage at 1.
    destruct (Z.ltb_spec 0 t2); [lia|reflexivity]. }
  set (t := {| id := next_timer x; task := RemoveMessage; delay := t1 |}).
  assert (Hm : messageTimer x2 = Some (id t) /\ In t (pending x2)).
  { rewrite E2. unfold showMessage.
    destruct (Z.ltb_spec 0 t1); [|lia].
    change (messageTimer (show m1 x)) with (messageTimer x).
    destruct (truthy (messageTimer x)); [destruct (messageTimer x)|];
      cbn [show setTimeout set_messageTimer clearTimeout fst snd messageTimer
           pending next_timer];
      (split; [reflexivity|apply in_or_app; right; now left]). }
  destruct Hm as [Hm Hin].
  split; [now rewrite E2|]. split; [now rewrite E2|].
  exists (id t). cbn [step]. rewrite (find_pending x2 t Hx2 Hin).
  cbn [task t run_task]. change (attached (clearTimeout (id t) x2)) with (attached x2).
  replace (attached x2) with true by now rewrite E2.
  eexists. split; [exact Hm|]. split; [reflexivity|].
  split; [now rewrite E2|reflexivity].
Qed.

Lemma untimed_message_removed_by_earlier_timer_witness :
  (1 <= 1)%nat /\
  run (constructor 1) [Opened] = Some (on_open (constructor 1)) /\
  0 < 2000 /\ 0 <= 0 /\
  attached (showMessage (lit "disconnected") 0
              (showMessage (lit "80 x 24") 2000 (on_open (constructor 1))))
  = true.
Proof.
  assert (H : (1 <= 1)%nat) by lia.
  assert (H1 : 0 < 2000) by lia.
  assert (H2 : 0 <= 0) by lia.
  split; [exact H|]. split; [reflexivity|]. split; [exact H1|].
  split; [exact H2|].
  exact (proj1 (proj2 (untimed_message_removed_by_earlier_timer 1 [Opened]
                         (on_open (constructor 1)) (lit "80 x 24")
                         (lit "disconnected") 2000 0 H eq_refl H1 H2))).
Defined.

End XtermProperties.

(** ** Routing of the site *)

Module RouteFacts.
Import Server ServerFacts.
Local Open Scope string_scope.

Lemma pathMatch_prefix (k path : string) :
  pathMatch k path = true -> String.prefix k path = true.
Proof.
  unfold pathMatch. destruct (ends_with_slash k); [trivial|apply eqb_prefix].
Qed.

(** The entry a mux chooses matches the path. *)
Lemma mux_match_matches (mux : ServeMux) (path : string)
  (best : option (string * Handler)) (k : string) (h : Handler) :
  mux_match mux path best = Some (k, h) ->
  best = Some (k, h) \/ (In (k, h) mux /\ pathMatch k path = true).
Proof.
  revert best. induction mux as [|[k0 h0] mux IH]; intro best; cbn [mux_match].
  - auto.
  - destruct (pathMatch k0 path) eqn:Em.
    + destruct best as [[kb hb]|].
      * destruct (String.length kb <? String.length k0)%nat; intro E;
          destruct (IH _ E) as [E'|[Hin Hm]]; auto.
        -- inversion E'; subst. right. split; [now left|assumption].
        -- right. split; [now right|assumption].
        -- right. split; [now right|assumption].
      * intro E. destruct (IH _ E) as [E'|[Hin Hm]].
        -- inversion E'; subst. right. split; [now left|assumption].
        -- right. split; [now right|assumption].
    + intro E. destruct (IH _ E) as [E'|[Hin Hm]]; auto.
      right. split; [now right|assumption].
Qed.

Lemma fresh_URLPath (Generate : Z -> string) (server : Server) :
  url server = None ->
  exists rnd, URLPath (fst (get_URL Generate server)) = rnd ++ "/".
Proof.
  intro E. unfold get_URL. rewrite E. cbn [fst URLPath].
  eexists. reflexivity.
Qed.

(** Which entry of the site's table a path under [url.Path] gets. *)
Lemma site_match (rnd y : string) (h0 h1 h2 h3 : Handler) :
  let P := rnd ++ "/" in
  mux_match [ (P, h0); (P ++ "js/", h1); (P ++ "favicon.png", h2);
              (P ++ "auth_token.js", h3) ] (P ++ y) None
  = Some (if String.eqb "auth_token.js" y then (P ++ "auth_token.js", h3)
          else if String.eqb "favicon.png" y then (P ++ "favicon.png", h2)
          else if String.prefix "js/" y then (P ++ "js/", h1)
          else (P, h0)).
Proof.
  intro P.
  assert (E0 : pathMatch P (P ++ y) = true).
  { unfold pathMatch, P. rewrite (ends_with_slash_app rnd "/" "").
    cbn [ends_with_slash]. change (Ascii.eqb "/" "/") with true. cbv iota.
    apply prefix_app. }
  assert (E1 : pathMatch (P ++ "js/") (P ++ y) = String.prefix "js/" y).
  { unfold pathMatch. rewrite (ends_with_slash_app P "j" "s/").
    change (ends_with_slash "js/") with true. cbv iota. apply prefix_app_same. }
  assert (E2 : pathMatch (P ++ "favicon.png") (P ++ y) = String.eqb "favicon.png" y).
  { unfold pathMatch. rewrite (ends_with_slash_app P "f" "avicon.png").
    change (ends_with_slash "favicon.png") with false. cbv iota.
    apply eqb_app_same. }
  assert (E3 : pathMatch (P ++ "auth_token.js") (P ++ y)
               = String.eqb "auth_token.js" y).
  { unfold pathMatch. rewrite (ends_with_slash_app P "a" "uth_token.js").
    change (ends_with_slash "auth_token.js") with false. cbv iota.
    apply eqb_app_same. }
  assert (L : forall s c, (String.length P <? String.length (P ++ String c s))%nat
                          = true).
  { intros s c. apply Nat.ltb_lt. rewrite length_app. cbn [String.length]. lia. }
  cbn [mux_match]. rewrite E0, E1, E2, E3.
  destruct (String.eqb_spec "auth_token.js" y) as [<-|_].
  - change (String.prefix "js/" "auth_token.js") with false.
    change (String.eqb "favicon.png" "auth_token.js") with false.
    cbv iota. now rewrite L.
  - destruct (String.eqb_spec "favicon.png" y) as [<-|_].
    + change (String.prefix "js/" "favicon.png") with false.
      cbv iota. now rewrite L.
    + destruct (String.prefix "js/" y); [now rewrite L|reflexivity].
Qed.

Lemma fresh_URLPath_slash (Generate : Z -> string) (server : Server) :
  url server = None ->
  exists rest, URLPath (fst (get_URL Generate server)) = String "/" rest.
Proof.
  intro E. unfold get_URL. rewrite E. cbn [fst URLPath].
  destruct (EnableRandomUrl (options server)); eexists; reflexivity.
Qed.

Lemma StripPrefix_app (P y : string) (r : Request) :
  P <> "" -> Path r = P ++ y ->
  StripPrefix P staticFileHandler r
  = {| layers := []; outcome := HandedTo StaticFile y |}.
Proof.
  intros HP E. unfold StripPrefix. rewrite E, TrimPrefix_app, length_app.
  replace (String.length y <? String.length P + String.length y)%nat with true.
  - reflexivity.
  - symmetry. apply Nat.ltb_lt. destruct P; [congruence|cbn; lia].
Qed.

(** The site's mux redirects exactly the root of its subtree [js/]. *)
Lemma site_slash_redirect (rnd y : string) (h0 h1 h2 h3 : Handler) :
  let P := rnd ++ "/" in
  shouldRedirect [ (P, h0); (P ++ "js/", h1); (P ++ "favicon.png", h2);
                   (P ++ "auth_token.js", h3) ] (P ++ y)
  = String.eqb "js" y.
Proof.
  intro P.
  assert (A1 : String.eqb P (P ++ y) = String.eqb "" y).
  { rewrite <- (app_empty_r P) at 1. apply eqb_app_same. }
  assert (A2 : String.eqb P ((P ++ y) ++ "/") = false).
  { apply eqb_length. rewrite !length_app. cbn. lia. }
  assert (A3 : forall k, String.eqb (P ++ k) ((P ++ y) ++ "/")
                         = String.eqb k (y ++ "/")).
  { intro k. rewrite app_assoc_string. apply eqb_app_same. }
  assert (Hlen : (String.length (P ++ y) =? 0)%nat = false).
  { apply Nat.eqb_neq. unfold P. rewrite !length_app. cbn. lia. }
  unfold shouldRedirect. cbn [registered existsb fst].
  rewrite A1, A2, !A3, !eqb_app_same, Hlen, !orb_false_r.
  rewrite (eqb_add_slash "favicon.png" y), (eqb_add_slash "auth_token.js" y)
    by reflexivity.
  change "js/" with ("js" ++ "/") at 2. rewrite eqb_snoc_slash.
  cbn [orb]. rewrite orb_false_r.
  destruct (String.eqb_spec "" y) as [<-|_]; [reflexivity|].
  destruct (String.eqb_spec "js/" y) as [<-|_]; [reflexivity|].
  destruct (String.eqb_spec "favicon.png" y) as [<-|_]; [reflexivity|].
  destruct (String.eqb_spec "auth_token.js" y) as [<-|_]; [reflexivity|].
  cbn [orb]. destruct (String.eqb_spec "js" y) as [<-|_]; [|reflexivity].
  rewrite (ends_with_slash_app P "j" "s"). reflexivity.
Qed.

End RouteFacts.

Module RouteProperties.
Import Server ServerFacts RouteFacts.
Local Open Scope string_scope.

(** X1: the URL is made once.  After [setupHandlers], [URL()] gives
    the URL the handlers were registered under, whatever the random
    generator would give now. *)
Theorem url_is_generated_once (Generate Generate' : Z -> string)
  (server : Server) :
  get_URL Generate' (snd (setupHandlers Generate server))
  = (fst (get_URL Generate server), snd (setupHandlers Generate server)) /\
  options (snd (setupHandlers Generate server)) = options server.
Proof.
  unfold setupHandlers.
  destruct (get_URL Generate server) as [u s1] eqn:E. cbn [fst snd].
  unfold get_URL in *. destruct (url server) as [u0|] eqn:Eu.
  - inversion E; subst. rewrite Eu. auto.
  - inversion E; subst. cbn [url options]. auto.
Qed.

(** X2: no handler of the server runs for a request whose path is
    outside [url.Path]; with a random URL, nothing is served to who does
    not know the random segment. *)
Theorem no_handler_outside_url_path (Generate : Z -> string)
  (server : Server) (r : Request) (leaf : Leaf) (p : string) :
  outcome (fst (setupHandlers Generate server) r) = HandedTo leaf p ->
  String.prefix (URLPath (fst (get_URL Generate server))) (Path r) = true.
Proof.
  rewrite setupHandlers_table.
  set (P := URLPath (fst (get_URL Generate server))).
  set (o := options server).
  match goal with
  | |- context [wrapBasicAuth ?s _ _] => set (site := s)
  end.
  destruct (String.eqb (RequestURI r) "*"); [discriminate|].
  destruct (negb (String.eqb (mux_path r) (Path r))); [discriminate|].
  destruct (String.eqb_spec (P ++ "ws") (Path r)) as [E|_].
  - intros _. rewrite <- E. apply prefix_app.
  - destruct (String.prefix "/" (Path r)); [|discriminate].
    assert (Hsite : outcome (site r) = HandedTo leaf p ->
                    String.prefix P (Path r) = true).
    { unfold site, mux_handler.
      destruct (String.eqb (RequestURI r) "*"); [discriminate|]. cbv zeta.
      destruct (shouldRedirect _ _); [discriminate|].
      destruct (negb (String.eqb (mux_path r) (Path r))); [discriminate|].
      destruct (mux_match _ (Path r) None) as [[k h]|] eqn:Em; [|discriminate].
      intros _. apply mux_match_matches in Em.
      destruct Em as [Em|[Hin Hm]]; [discriminate|].
      apply pathMatch_prefix in Hm.
      cbn [In] in Hin.
      destruct Hin as [Hin|[Hin|[Hin|[Hin|[]]]]]; inversion Hin; subst k;
        try assumption; now apply prefix_app_inv in Hm. }
    destruct (EnableBasicAuth o); [|exact Hsite].
    unfold wrapBasicAuth. destruct (BasicCredential r) as [c|]; [|discriminate].
    destruct (String.eqb c (Credential o)); [exact Hsite|discriminate].
Qed.

Lemma no_handler_outside_url_path_witness :
  outcome (fst (setupHandlers no_random (fst (New tt basic_auth_options)))
             member_js_request)
  = HandedTo StaticFile "js/gotty.js" /\
  String.prefix "/" (Path member_js_request) = true.
Proof.
  assert (H : outcome (fst (setupHandlers no_random
                              (fst (New tt basic_auth_options)))
                         member_js_request)
              = HandedTo StaticFile "js/gotty.js") by reflexivity.
  split; [exact H|].
  exact (no_handler_outside_url_path no_random (fst (New tt basic_auth_options))
           member_js_request StaticFile "js/gotty.js" H).
Defined.

(** X3: the routing table of the site.  For a server whose URL is not made
    yet and a request that is admitted (no basic authentication, or the
    right credential), whose target is not [*], for a canonical path
    [url.Path ++ y] other than the upgrade endpoint: [js], the root of the
    subtree [js/] without its
    slash, is redirected to [js/] and no handler runs; [auth_token.js] goes
    to the token script; the icon, everything under [js/] and, without an
    index file, every other path go to the static files with [url.Path]
    stripped; with an index file every other path gets the custom
    index. *)
Theorem site_routing (Generate : Z -> string) (server : Server)
  (r : Request) (y : string) :
  url server = None ->
  EnableBasicAuth (options server) = false \/
  BasicCredential r = Some (Credential (options server)) ->
  RequestURI r <> "*" ->
  Path r = URLPath (fst (get_URL Generate server)) ++ y ->
  cleanPath (Path r) = Path r ->
  y <> "ws" ->
  fst (setupHandlers Generate server) r =
  {| layers := Logger :: Headers
               :: (if EnableBasicAuth (options server) then [BasicAuth] else []);
     outcome :=
       if String.eqb "js" y
       then Redirect (Path r ++ "/")
       else if String.eqb "auth_token.js" y
       then HandedTo AuthTokenScript (Path r)
       else if String.eqb "favicon.png" y || String.prefix "js/" y
               || String.eqb (IndexFile (options server)) ""
       then HandedTo StaticFile y
       else HandedTo CustomIndex (Path r) |}.
Proof.
  intros Hfresh Hadm Hu Hpath Hclean Hy.
  apply String.eqb_neq in Hu.
  rewrite setupHandlers_table, Hu.
  destruct (fresh_URLPath Generate server Hfresh) as [rnd HP].
  set (P := URLPath (fst (get_URL Generate server))) in *.
  clearbody P. subst P.
  assert (HPne : rnd ++ "/" <> "").
  { intro E. apply (f_equal String.length) in E. rewrite length_app in E.
    cbn in E. lia. }
  rewrite (mux_path_clean _ Hclean), String.eqb_refl. cbn [negb].
  rewrite Hpath at 1. rewrite eqb_app_same.
  destruct (String.eqb_spec "ws" y) as [E|_]; [now elim Hy|].
  rewrite (proj1 (clean_rooted _ Hclean)).
  match goal with
  | |- context [wrapBasicAuth ?s _ _] => set (site := s)
  end.
  assert (Hsite : site r =
    {| layers := [];
       outcome :=
         if String.eqb "js" y
         then Redirect (Path r ++ "/")
         else if String.eqb "auth_token.js" y
         then HandedTo AuthTokenScript (Path r)
         else if String.eqb "favicon.png" y || String.prefix "js/" y
                 || String.eqb (IndexFile (options server)) ""
         then HandedTo StaticFile y
         else HandedTo CustomIndex (Path r) |}).
  { unfold site, mux_handler. rewrite Hu. cbv zeta.
    rewrite (mux_path_clean _ Hclean), String.eqb_refl. cbn [negb].
    rewrite Hpath at 1. rewrite site_slash_redirect.
    destruct (String.eqb "js" y) eqn:Ejs; [reflexivity|].
    rewrite Hpath at 1. rewrite site_match.
    destruct (String.eqb "auth_token.js" y); [reflexivity|].
    destruct (String.eqb "favicon.png" y);
      [cbn [orb]; now apply StripPrefix_app|].
    destruct (String.prefix "js/" y);
      [cbn [orb]; now apply StripPrefix_app|].
    cbn [orb]. destruct (String.eqb (IndexFile (options server)) "");
      cbn [negb]; [now apply StripPrefix_app|reflexivity]. }
  destruct (EnableBasicAuth (options server)) eqn:Ea.
  - destruct Hadm as [Hadm|Hadm]; [discriminate|].
    unfold wrapBasicAuth. rewrite Hadm, String.eqb_refl, Hsite. reflexivity.
  - rewrite Hsite. reflexivity.
Qed.

Lemma site_routing_witness :
  url (fst (New tt basic_auth_options)) = None /\
  RequestURI member_js_request <> "*" /\
  cleanPath (Path member_js_request) = Path member_js_request /\
  fst (setupHandlers no_random (fst (New tt basic_auth_options)))
    member_js_request
  = {| layers := [Logger; Headers; BasicAuth];
       outcome := HandedTo StaticFile "js/gotty.js" |}.
Proof.
  assert (Hu : RequestURI member_js_request <> "*") by discriminate.
  split; [reflexivity|]. split; [exact Hu|]. split; [reflexivity|].
  refine (site_routing no_random (fst (New tt basic_auth_options))
            member_js_request "js/gotty.js" eq_refl (or_intror eq_refl)
            Hu eq_refl eq_refl _).
  discriminate.
Defined.

End RouteProperties.

(** ** More on [Run] *)

Module RunFacts.
Import Server Lifecycle LifecycleFacts.

(** While [Run] serves, only a trigger ends it. *)
Lemma exec_serving_shape (o : Options) (s s' : Coordinator)
  (trace : list Label) (e : option error) :
  pc s = Serving -> exec o s trace = Some s' -> pc s' = Returned e ->
  exists pre t late post sel,
    trace = pre ++ Shutdown t late :: post /\
    Forall (fun l => l = Register \/ l = Deregister) pre /\
    possible o t = true /\ main_select t = Some sel /\
    e = after_select sel late.
Proof.
  revert s. induction trace as [|l trace IH]; intros s Hs; cbn [exec].
  - intros E Hr. inversion E; subst. congruence.
  - destruct (step o s l) as [s1|] eqn:E1; [|discriminate].
    intros E Hr.
    destruct (step_serving o s s1 l Hs E1)
      as [(Hpc & Hl)|(t & late & sel & -> & Hsel & Hp & Hpc & _)].
    + destruct (IH s1 Hpc E Hr)
        as (pre & t & late & post & sel & -> & Hpre & Hp & Hsel & He).
      exists (l :: pre), t, late, post, sel. repeat split; auto.
    + destruct (exec_waiting o s1 s' trace _ e Hpc E Hr) as (-> & _ & _).
      exists [], t, late, trace, sel. repeat split; auto.
Qed.

End RunFacts.

Module RunMore.
Import Server Lifecycle LifecycleFacts RunFacts.
Local Open Scope string_scope.

(** X4: [Run] fails before serving exactly when client certificates
    are required and the CA file cannot be read or holds no certificate.
    It then returns at once the error of [tlsConfig] wrapped twice, and
    nothing is served: no session is admitted and no trigger is awaited. *)
Theorem run_fails_at_setup (Expand : string -> string) (o : Options)
  (fs : Files) :
  ((exists err, setupHTTPServer Expand o fs = Some err) <->
   EnableTLSClientAuth o = true /\
   (ca_file_read fs = false \/ ca_pem_appended fs = false)) /\
  (EnableTLSClientAuth o = true ->
   ca_file_read fs = false \/ ca_pem_appended fs = false ->
   Run Expand o fs []
   = Some (Some (Wrapf
                   (Wrapf
                      (ErrNew
                         ((if ca_file_read fs
                           then "Could not parse CA crt file data in "
                           else "Could not open CA crt file ")
                          ++ Expand (TLSCACrtFile o)))
                      "failed to setup TLS configuration")
                   "failed to setup an HTTP server")) /\
   forall l trace, Run Expand o fs (l :: trace) = None).
Proof.
  split.
  - unfold setupHTTPServer, tlsConfig.
    destruct (EnableTLSClientAuth o), (ca_file_read fs), (ca_pem_appended fs);
      cbn; split;
      try (intros [err H]; discriminate);
      try (intros [H _]; discriminate);
      try (intros [_ [H|H]]; discriminate);
      try (intros _; eauto).
  - intros Hauth Hfile. unfold Run, start, setupHTTPServer, tlsConfig.
    rewrite Hauth.
    destruct (ca_file_read fs), (ca_pem_appended fs); cbn;
      try (destruct Hfile; discriminate); split; try reflexivity;
      intros l trace; destruct l; reflexivity.
Qed.

Lemma run_fails_at_setup_witness :
  EnableTLSClientAuth client_auth_options = true /\
  (ca_file_read no_files = false \/ ca_pem_appended no_files = false) /\
  Run (fun path => path) client_auth_options no_files []
  = Some (Some (Wrapf
                  (Wrapf (ErrNew "Could not open CA crt file ~/.gotty.ca.crt")
                     "failed to setup TLS configuration")
                  "failed to setup an HTTP server")).
Proof.
  split; [reflexivity|]. split; [left; reflexivity|].
  exact (proj1 (proj2 (run_fails_at_setup (fun path => path)
                         client_auth_options no_files)
                  eq_refl (or_introl eq_refl))).
Defined.

(** X5: once the set-up has succeeded, [Run] returns only after one
    of its triggers has happened; before the trigger only sessions start
    and end, and the value returned is the one fixed at the trigger. *)
Theorem run_returns_only_after_a_trigger (Expand : string -> string)
  (o : Options) (fs : Files) (trace : list Label) (err : option error) :
  setupHTTPServer Expand o fs = None ->
  Run Expand o fs trace = Some err ->
  exists pre t late_write post sel,
    trace = (pre ++ Shutdown t late_write :: post)%list /\
    Forall (fun l => l = Register \/ l = Deregister) pre /\
    possible o t = true /\ main_select t = Some sel /\
    err = after_select sel late_write.
Proof.
  intros Hsetup. unfold Run, start. rewrite Hsetup.
  destruct (exec o {| pc := Serving; wsWG := 0; active := 0 |} trace)
    as [[p n a]|] eqn:E; [|discriminate].
  destruct p as [| |e]; try discriminate. intro H. inversion H; subst e.
  eapply exec_serving_shape; [|exact E|reflexivity]. reflexivity.
Qed.

Lemma run_returns_only_after_a_trigger_witness :
  setupHTTPServer (fun path => path) basic_auth_options no_files = None /\
  Run (fun path => path) basic_auth_options no_files
    [Register; Shutdown GracefulDone false; Deregister; WaitReturns]
  = Some None /\
  exists pre t late_write post sel,
    [Register; Shutdown GracefulDone false; Deregister; WaitReturns]
    = (pre ++ Shutdown t late_write :: post)%list /\
    Forall (fun l => l = Register \/ l = Deregister) pre /\
    possible basic_auth_options t = true /\ main_select t = Some sel /\
    None = after_select sel late_write.
Proof.
  split; [reflexivity|]. split; [reflexivity|].
  exact (run_returns_only_after_a_trigger (fun path => path)
           basic_auth_options no_files
           [Register; Shutdown GracefulDone false; Deregister; WaitReturns]
           None eq_refl eq_refl).
Defined.

(** X6: of the options given to [Run], the last [WithGracefullContext]
    decides the graceful context; without any it is the background
    context. *)
Theorem last_graceful_context_wins (Context : Type) (background : Context)
  (contexts : list Context) :
  RunOption.gracefullCtx Context
    (RunOption.apply_options Context background
       (map (RunOption.WithGracefullContext Context) contexts))
  = last contexts background.
Proof.
  unfold RunOption.apply_options.
  revert background. induction contexts as [|c contexts IH]; intro background.
  - reflexivity.
  - cbn [map fold_left].
    change (RunOption.WithGracefullContext Context c
              {| RunOption.gracefullCtx := background |})
      with {| RunOption.gracefullCtx := c |}.
    rewrite IH. destruct contexts as [|c0 contexts]; [reflexivity|].
    change (last (c :: c0 :: contexts) background)
      with (last (c0 :: contexts) background).
    generalize c0. clear. induction contexts as [|c1 contexts IH]; intro c0.
    + reflexivity.
    + change (last (c0 :: c1 :: contexts) c) with (last (c1 :: contexts) c).
      change (last (c0 :: c1 :: contexts) background)
        with (last (c1 :: contexts) background).
      apply IH.
Qed.

End RunMore.

(** ** More on the client *)

Module ClientMore.
Import WebTTY WebTTYFacts Traffic TrafficFacts.

(** X7: whatever happens, every body the controller sends is the
    handshake object, an Input frame or a ResizeTerminal frame; it never
    sends a Ping and never sends a frame of kind '0'. *)
Theorem only_three_kinds_of_body {B : JSON.Builtin} (cfg : Config)
  (events : list Event) (c : nat) (b : jsstring) :
  In b (sent_on c (run cfg initial events)) ->
  controller_body cfg b /\
  starts_with Ping b = false /\ starts_with InputUnknown b = false.
Proof.
  intro Hin.
  assert (Hb : controller_body cfg b).
  { destruct (run_appends cfg events initial) as (bodies & _ & E & _ & F).
    unfold sent_on in Hin. rewrite E in Hin. cbn [initial sent app] in Hin.
    apply in_map_iff in Hin. destruct Hin as (m & <- & Hm).
    apply filter_In in Hm. rewrite Forall_forall in F. now apply F. }
  split; [exact Hb|].
  destruct Hb as [->|[[input ->]|(columns & rows & ->)]]; split; reflexivity.
Qed.

Lemma only_three_kinds_of_body_witness :
  In (lit "1ls")
    (sent_on 0
       (run (B := JSON.integers_only) {| args := []; authToken := [] |}
          initial [CallOpen; ConnOpen 0; TermInput (lit "ls")])) /\
  starts_with Ping (lit "1ls") = false.
Proof.
  assert (H : In (lit "1ls")
                (sent_on 0
                   (run (B := JSON.integers_only)
                      {| args := []; authToken := [] |} initial
                      [CallOpen; ConnOpen 0; TermInput (lit "ls")])))
    by (right; left; reflexivity).
  split; [exact H|].
  exact (proj1 (proj2 (only_three_kinds_of_body (B := JSON.integers_only)
                         _ _ 0 (lit "1ls") H))).
Defined.

(** X8: a listener of the terminal is never removed.  Once a
    connection has an input listener, every later terminal input is sent on
    it, whatever happened in between, the close of that connection
    included. *)
Theorem input_listener_is_never_removed {B : JSON.Builtin} (cfg : Config)
  (w : World JSON.Opaque) (events : list Event) (c : nat)
  (input : jsstring) :
  In c (input_listeners w) ->
  In c (input_listeners (run cfg w events)) /\
  In (c, Input ++ input)
     (sent (fst (step cfg (run cfg w events) (TermInput input)))).
Proof.
  intro Hin.
  destruct (run_appends cfg events w) as (bodies & ls & _ & E & _).
  assert (Hc : In c (input_listeners (run cfg w events))).
  { rewrite E. apply in_or_app. now left. }
  split; [exact Hc|]. cbn [step fst].
  destruct (input_fold_sent input (input_listeners (run cfg w events))
              (run cfg w events)) as [E1 _].
  cbn zeta in E1. rewrite E1. apply in_or_app. right.
  apply in_map_iff. now exists c.
Qed.

Lemma input_listener_is_never_removed_witness :
  In 0%nat
    (input_listeners
       (run (B := JSON.integers_only) {| args := []; authToken := [] |}
          initial [CallOpen; ConnOpen 0])) /\
  In (0%nat, lit "1x")
     (sent
        (fst (step (B := JSON.integers_only) {| args := []; authToken := [] |}
                (run {| args := []; authToken := [] |}
                   (run {| args := []; authToken := [] |} initial
                      [CallOpen; ConnOpen 0])
                   [ConnClose 0])
                (TermInput (lit "x"))))).
Proof.
  assert (H : In 0%nat
                (input_listeners
                   (run (B := JSON.integers_only)
                      {| args := []; authToken := [] |} initial
                      [CallOpen; ConnOpen 0])))
    by (left; reflexivity).
  split; [exact H|].
  exact (proj2 (input_listener_is_never_removed (B := JSON.integers_only)
                  {| args := []; authToken := [] |} _ [ConnClose 0] 0
                  (lit "x") H)).
Defined.

(** X9: as long as no [SetReconnect] frame has stored a value [v]
    with [v > 0], no timeout is ever set by the controller, however many
    connections close. *)
Theorem no_delay_no_timeout {B : JSON.Builtin} (cfg : Config)
  (events : list Event) :
  Forall stores_no_delay events ->
  timeouts (run cfg initial events) = [] /\
  reconnect_positive (reconnect (run cfg initial events)) = false.
Proof.
  intro H.
  assert (G : forall w : World JSON.Opaque,
             reconnect_positive (reconnect w) = false -> timeouts w = [] ->
             timeouts (run cfg w events) = [] /\
             reconnect_positive (reconnect (run cfg w events)) = false).
  { induction H as [|e events He _ IH]; intros w Hr Ht; [auto|].
    change (run cfg w (e :: events)) with (run cfg (fst (step cfg w e)) events).
    destruct (no_delay_step cfg w e He Hr Ht) as [Hr' Ht']. now apply IH. }
  apply G; reflexivity.
Qed.

Lemma no_delay_no_timeout_witness :
  Forall (stores_no_delay (B := JSON.integers_only))
    [CallOpen; ConnOpen 0; ConnReceive 0 (lit "50"); ConnClose 0] /\
  timeouts
    (run (B := JSON.integers_only) {| args := []; authToken := [] |} initial
       [CallOpen; ConnOpen 0; ConnReceive 0 (lit "50"); ConnClose 0])
  = [].
Proof.
  assert (H : Forall (stores_no_delay (B := JSON.integers_only))
                [CallOpen; ConnOpen 0; ConnReceive 0 (lit "50"); ConnClose 0]).
  { repeat constructor. }
  split; [exact H|].
  exact (proj1 (no_delay_no_timeout (B := JSON.integers_only)
                  {| args := []; authToken := [] |} _ H)).
Defined.

(** X10: an Output frame is written to the terminal only when its
    payload is base64 of well-formed UTF-8, and what is written is the text
    these bytes encode; on every other payload the handler throws before
    writing. *)
Theorem output_written_only_for_text {B : JSON.Builtin} (payload : jsstring)
  (w w' : World JSON.Opaque) :
  onReceive (Output ++ payload) w = Normal w' ->
  exists bin text,
    Base64.atob payload = Normal bin /\ Forall UTF8.scalar_value text /\
    bin = UTF8.encode text /\
    w' = term (Write (UTF8.to_jsstring text)) w.
Proof.
  rewrite onReceive_dispatch. change Output with [49]. cbn [app hd_error tl].
  unfold decode_output.
  destruct (Base64.atob payload) as [bin|x] eqn:Ea; [|discriminate].
  cbn [bindC].
  destruct (URI.decodeURIComponent _) as [s|x] eqn:Ed; [|discriminate].
  intro E. inversion E; subst w'.
  destruct (URIFacts.Decode_only_text (length bin) bin s (le_n _)
              (atob_bytes payload bin Ea) Ed) as (text & Ht & -> & ->).
  exists (UTF8.encode text), text. auto.
Qed.

Lemma output_written_only_for_text_witness :
  onReceive (B := JSON.integers_only) (Output ++ lit "aGk=") initial
  = Normal (term (Write (lit "hi")) initial) /\
  exists bin text,
    Base64.atob (lit "aGk=") = Normal bin /\ Forall UTF8.scalar_value text /\
    bin = UTF8.encode text /\
    term (B := JSON.integers_only) (Write (lit "hi")) initial
    = term (Write (UTF8.to_jsstring text)) initial.
Proof.
  assert (H : onReceive (B := JSON.integers_only) (Output ++ lit "aGk=") initial
              = Normal (term (Write (lit "hi")) initial)) by reflexivity.
  split; [exact H|].
  exact (output_written_only_for_text (B := JSON.integers_only) (lit "aGk=")
           initial _ H).
Defined.

(** X11: the page never sends an authentication token: on every
    connection it makes, the first body is the handshake with the page's
    query string as [Arguments] and the empty string as [AuthToken]. *)
Theorem page_handshake_has_empty_token {B : JSON.Builtin}
  (loc : Main.Location) (events : list Event) (c : nat)
  (f : Main.ConnectionFactory) (cfg : Config) (w : World JSON.Opaque) :
  Main.main true loc = Some (f, cfg, w) ->
  match sent_on c (run cfg w events) with
  | [] => True
  | first :: _ =>
      first = JSON.stringify_handshake (Main.search loc) (lit "")
  end.
Proof.
  cbn [Main.main]. intro E. inversion E; subst f cfg w. clear E.
  set (cfg := {| args := Main.search loc; authToken := lit "" |}).
  assert (H0 : handshake_first cfg (open initial)).
  { eapply handshake_first_frame; [| | |apply handshake_first_initial];
      reflexivity. }
  destruct (handshake_first_run cfg events (open initial) H0) as (_ & _ & Hh).
  specialize (Hh c).
  destruct (sent_on c (run cfg (open initial) events)) as [|first rest];
    [exact I|].
  destruct Hh as [Hh|Hh]; [discriminate|].
  cbn [hd_error] in Hh. now injection Hh.
Qed.

Lemma page_handshake_has_empty_token_witness :
  Main.main (B := JSON.integers_only) true
    {| Main.protocol := lit "https:"; Main.hostname := lit "example.org";
       Main.port := lit "443"; Main.pathname := lit "/";
       Main.search := lit "?arg=-l" |}
  = Some ({| Main.url := lit "wss://example.org:8080/ws";
             Main.subprotocols := [lit "webtty"] |},
          {| args := lit "?arg=-l"; authToken := [] |}, open initial) /\
  match
    sent_on 0
      (run (B := JSON.integers_only)
         {| args := lit "?arg=-l"; authToken := [] |} (open initial)
         [ConnOpen 0; TermInput (lit "x")])
  with
  | [] => True
  | first :: _ => first = JSON.stringify_handshake (lit "?arg=-l") (lit "")
  end.
Proof.
  split; [reflexivity|].
  exact (page_handshake_has_empty_token (B := JSON.integers_only)
           {| Main.protocol := lit "https:";
              Main.hostname := lit "example.org";
              Main.port := lit "443"; Main.pathname := lit "/";
              Main.search := lit "?arg=-l" |}
           [ConnOpen 0; TermInput (lit "x")] 0 _ _ _ eq_refl).
Defined.

End ClientMore.
